(** * Locator Inspector: locator generation, scoring and ranking

    A shallow embedding of the locator engine of [content.js]
    (class [LocatorInspector]) and the properties its specification
    states about it.

    Conventions of the embedding.
    - JavaScript strings are [string]s of 8-bit code units, read as
      Latin-1; [null] and [undefined] are [None].
    - Scores are integers ([Z]): every summand of [calculateScore] is an
      integer, so [Math.round] is the identity on them.
    - The live document is an explicit record of the queries the code
      issues ([querySelector], [querySelectorAll], [evaluate],
      [getElementById]).  A query that raises a DOM exception is a
      [Throw]; code that can raise runs in the [Completion] monad.
    - The properties of an element and the methods of the document are
      the built-in ones: [element.id] reflects the [id] attribute.  A
      form whose controls are named like a property and so shadow it, or
      a page whose named elements shadow a method of [document], is
      outside the embedding.
    - Tag names are those of an HTML document, upper-case ASCII:
      [toLowerCase] maps A to Z only, and the lookup in [roleMap] meets
      the own keys of the object only.
    - An object keyed by attribute names is the list of its entries in
      the order of the attributes; no attribute name is an array index. *)

From Stdlib Require Import String Ascii List ZArith Lia Bool Arith.
From Stdlib Require Import Permutation Sorted DecimalString.
Import ListNotations.

Local Open Scope list_scope.
Local Open Scope string_scope.

(* ================================================================== *)
(** ** Strings as JavaScript uses them *)

Module JSString.

Definition code (c : ascii) : nat := nat_of_ascii c.

(** [\s] and [String.prototype.trim] white space, within Latin-1:
    TAB, LF, VT, FF, CR, SPACE and NBSP. *)
Definition is_ws (c : ascii) : bool :=
  let n := code c in
  (((9 <=? n) && (n <=? 13)) || (n =? 32) || (n =? 160))%nat.

Definition is_digit (c : ascii) : bool :=
  let n := code c in ((48 <=? n) && (n <=? 57))%nat.

Definition is_lower (c : ascii) : bool :=
  let n := code c in ((97 <=? n) && (n <=? 122))%nat.

Definition is_upper (c : ascii) : bool :=
  let n := code c in ((65 <=? n) && (n <=? 90))%nat.

Definition is_quote (c : ascii) : bool := (code c =? 34)%nat.

Definition quote : string := String (ascii_of_nat 34) EmptyString.

Definition lower_char (c : ascii) : ascii :=
  if is_upper c then ascii_of_nat (code c + 32) else c.

Fixpoint toLowerCase (s : string) : string :=
  match s with
  | EmptyString => EmptyString
  | String c s' => String (lower_char c) (toLowerCase s')
  end.

Fixpoint trimStart (s : string) : string :=
  match s with
  | EmptyString => EmptyString
  | String c s' => if is_ws c then trimStart s' else s
  end.

Fixpoint trimEnd (s : string) : string :=
  match s with
  | EmptyString => EmptyString
  | String c s' =>
      match trimEnd s' with
      | EmptyString => if is_ws c then EmptyString else String c EmptyString
      | r => String c r
      end
  end.

Definition trim (s : string) : string := trimEnd (trimStart s).

(** [s.replace(/\s+/g, ' ')]: each maximal run of white space becomes
    one space. *)
Fixpoint collapse_from (in_run : bool) (s : string) : string :=
  match s with
  | EmptyString => EmptyString
  | String c s' =>
      if is_ws c
      then (if in_run then collapse_from true s'
            else String " "%char (collapse_from true s'))
      else String c (collapse_from false s')
  end.

Definition collapse_ws (s : string) : string := collapse_from false s.

(** [s.includes(c)] for a one-character needle. *)
Fixpoint includes_char (c : ascii) (s : string) : bool :=
  match s with
  | EmptyString => false
  | String x s' => Ascii.eqb x c || includes_char c s'
  end.

(** [s.split(' ')[0]]: the part before the first SPACE. *)
Fixpoint before_space (s : string) : string :=
  match s with
  | EmptyString => EmptyString
  | String c s' =>
      if Ascii.eqb c " "%char then EmptyString else String c (before_space s')
  end.

(** [s.replace(/Q/g, '')] where Q is the double quote. *)
Fixpoint remove_quotes (s : string) : string :=
  match s with
  | EmptyString => EmptyString
  | String c s' =>
      if is_quote c then remove_quotes s' else String c (remove_quotes s')
  end.

(** [s.replace('#', '')]: the first occurrence only. *)
Fixpoint remove_first_hash (s : string) : string :=
  match s with
  | EmptyString => EmptyString
  | String c s' =>
      if Ascii.eqb c "#"%char then s' else String c (remove_first_hash s')
  end.

(** Template-literal rendering of a non-negative integer. *)
Definition of_nat (n : nat) : string :=
  NilEmpty.string_of_uint (Nat.to_uint n).

(** [parts.join(sep)]. *)
Fixpoint join (sep : string) (parts : list string) : string :=
  match parts with
  | [] => EmptyString
  | [p] => p
  | p :: rest => p ++ sep ++ join sep rest
  end.

(** [strip_prefix p s] is [Some r] when [s = p ++ r]. *)
Fixpoint strip_prefix (p s : string) : option string :=
  match p, s with
  | EmptyString, _ => Some s
  | String a p', String b s' =>
      if Ascii.eqb a b then strip_prefix p' s' else None
  | String _ _, EmptyString => None
  end.

(** The longest prefix without a double quote, and what follows it:
    how a greedy class [[^Q]*] (Q the double quote) consumes input. *)
Fixpoint span_unquoted (s : string) : string * string :=
  match s with
  | EmptyString => (EmptyString, EmptyString)
  | String c s' =>
      if is_quote c then (EmptyString, s)
      else let (body, rest) := span_unquoted s' in (String c body, rest)
  end.

(** One attempt, at the start of [s], of a pattern of the shape
    [pre [^Q]{min,} post] where Q is the double quote and [post]
    starts with one.
    The class cannot cross a quote and [post] needs one, so the greedy
    run is the only split that can succeed: no backtracking is lost.
    Returns the captured run and the text after the match. *)
Definition quoted_at (pre post : string) (min : nat) (s : string)
  : option (string * string) :=
  match strip_prefix pre s with
  | None => None
  | Some r =>
      let (body, rest) := span_unquoted r in
      if (min <=? String.length body)%nat then
        match strip_prefix post rest with
        | Some after => Some (body, after)
        | None => None
        end
      else None
  end.

(** Leftmost match of such a pattern in [s]:
    [(text before, captured run, text after)]. *)
Fixpoint quoted_search (pre post : string) (min : nat) (s : string)
  : option (string * string * string) :=
  match quoted_at pre post min s with
  | Some (body, after) => Some (EmptyString, body, after)
  | None =>
      match s with
      | EmptyString => None
      | String c s' =>
          match quoted_search pre post min s' with
          | Some (before, body, after) => Some (String c before, body, after)
          | None => None
          end
      end
  end.

(** [s.match(/pre([^Q]+)post/)?.[1]]. *)
Definition capture (pre post : string) (s : string) : option string :=
  match quoted_search pre post 1 s with
  | Some (_, body, _) => Some body
  | None => None
  end.

(** [s.replace(/pre[^Q]*post/, by)]: first match only. *)
Definition replace_first (pre post by_ : string) (s : string) : string :=
  match quoted_search pre post 0 s with
  | Some (before, _, after) => before ++ by_ ++ after
  | None => s
  end.

End JSString.

(* ================================================================== *)
(** ** Regular expressions, for [RegExp.prototype.test] *)

Module Regex.

Inductive re : Type :=
| Void
| Eps
| Chr (p : ascii -> bool)
| Cat (a b : re)
| Alt (a b : re)
| Star (a : re).

Fixpoint nullable (r : re) : bool :=
  match r with
  | Void => false
  | Eps => true
  | Chr _ => false
  | Cat a b => nullable a && nullable b
  | Alt a b => nullable a || nullable b
  | Star _ => true
  end.

Definition cat (a b : re) : re :=
  match a, b with
  | Void, _ => Void
  | _, Void => Void
  | Eps, _ => b
  | _, Eps => a
  | _, _ => Cat a b
  end.

Definition alt (a b : re) : re :=
  match a, b with
  | Void, _ => b
  | _, Void => a
  | _, _ => Alt a b
  end.

(** Brzozowski derivative. *)
Fixpoint deriv (c : ascii) (r : re) : re :=
  match r with
  | Void => Void
  | Eps => Void
  | Chr p => if p c then Eps else Void
  | Cat a b =>
      if nullable a
      then alt (cat (deriv c a) b) (deriv c b)
      else cat (deriv c a) b
  | Alt a b => alt (deriv c a) (deriv c b)
  | Star a => cat (deriv c a) (Star a)
  end.

(** Some prefix of [s] matches [r]. *)
Fixpoint matches_prefix (r : re) (s : string) : bool :=
  nullable r ||
  match s with
  | EmptyString => false
  | String c s' => matches_prefix (deriv c r) s'
  end.

(** [r.test(s)] for an unanchored pattern: some substring matches. *)
Fixpoint test (r : re) (s : string) : bool :=
  matches_prefix r s ||
  match s with
  | EmptyString => false
  | String _ s' => test r s'
  end.

Fixpoint times (n : nat) (r : re) : re :=
  match n with
  | O => Eps
  | S k => Cat r (times k r)
  end.

Definition plus (r : re) : re := Cat r (Star r).
Definition at_least (n : nat) (r : re) : re := Cat (times n r) (Star r).

Definition lit (c : ascii) : re := Chr (Ascii.eqb c).
(** A letter under the [i] flag. *)
Definition lit_i (c : ascii) : re :=
  Chr (fun x => Ascii.eqb (JSString.lower_char x) c).

Definition digit : re := Chr JSString.is_digit.
(** [[a-z]] under the [i] flag. *)
Definition letter_i : re :=
  Chr (fun x => JSString.is_lower x || JSString.is_upper x).
(** [[0-9a-f]] under the [i] flag. *)
Definition hex_i : re :=
  Chr (fun x =>
         let n := JSString.code (JSString.lower_char x) in
         JSString.is_digit x || ((97 <=? n) && (n <=? 102))%nat).

Fixpoint seq (rs : list re) : re :=
  match rs with
  | [] => Eps
  | r :: rest => Cat r (seq rest)
  end.

End Regex.

(* ================================================================== *)
(** ** Completions: normal return or a raised exception *)

Inductive DOMException : Type :=
| SyntaxError.

Inductive Completion (A : Type) : Type :=
| Normal (a : A)
| Throw (e : DOMException).

Arguments Normal {A} a.
Arguments Throw {A} e.

Definition bind {A B : Type} (c : Completion A) (k : A -> Completion B)
  : Completion B :=
  match c with
  | Normal a => k a
  | Throw e => Throw e
  end.

(** [try { c } catch (e) { h }]. *)
Definition try_catch {A : Type} (c : Completion A) (h : Completion A)
  : Completion A :=
  match c with
  | Normal a => Normal a
  | Throw _ => h
  end.

Notation "x <- c ;; k" := (bind c (fun x => k))
  (at level 61, c at next level, right associativity).

Fixpoint mapM {A B : Type} (f : A -> Completion B) (l : list A)
  : Completion (list B) :=
  match l with
  | [] => Normal []
  | a :: rest =>
      b <- f a ;;
      bs <- mapM f rest ;;
      Normal (b :: bs)
  end.


(* ================================================================== *)
(** ** The document accessor *)

(** [getBoundingClientRect()]: only whether the sides are zero matters
    to the code; sides are counted in layout units. *)
Record DOMRect : Type := mkRect {
  rect_width : Z;
  rect_height : Z
}.

(** [window.getComputedStyle(element)], the three properties read. *)
Record CSSStyle : Type := mkStyle {
  style_visibility : string;
  style_display : string;
  style_opacity : string
}.

(** [element.className] is a string on HTML elements and an
    [SVGAnimatedString] object on SVG elements. *)
Inductive ClassName : Type :=
| ClassString (s : string)
| ClassAnimated.

(** An element together with what the code reads from it and from its
    ancestors.  [node] is the identity of the node, compared by [===];
    [previousElementSiblings] lists the tag names met by following
    [previousElementSibling], nearest first. *)
#[warnings="-register-all"] Inductive Element : Type := mkElement {
  node : nat;
  tagName : string;
  attributes : list (string * string);
  className : ClassName;
  textContent : string;
  previousElementSiblings : list string;
  boundingClientRect : DOMRect;
  computedStyle : CSSStyle;
  parentElement : option Element
}.

(** The global [document].  [querySelectorAll] and [evaluate] give the
    length of the result; a selector or path the engine rejects raises
    [SyntaxError]. *)
Record Document : Type := mkDocument {
  body : option nat;
  documentElement : nat;
  querySelector : string -> Completion (option Element);
  querySelectorAll : string -> Completion nat;
  evaluate : string -> Completion nat;
  getElementById : string -> option Element
}.

Fixpoint assoc (k : string) (l : list (string * string)) : option string :=
  match l with
  | [] => None
  | (k', v) :: rest => if String.eqb k' k then Some v else assoc k rest
  end.

(** [element.getAttribute(name)]: the value, or [null]. *)
Definition getAttribute (e : Element) (name : string) : option string :=
  assoc name (attributes e).

(** [element.id] reflects the [id] attribute, [''] when absent. *)
Definition id (e : Element) : string :=
  match getAttribute e "id" with
  | Some v => v
  | None => ""
  end.

(** JavaScript truthiness of a string and of a string-or-null. *)
Definition truthy_string (s : string) : bool :=
  negb (String.eqb s "").

Definition truthy (v : option string) : bool :=
  match v with
  | Some s => truthy_string s
  | None => false
  end.

(** [a || b] on string-or-null operands. *)
Definition js_or (a b : option string) : option string :=
  if truthy a then a else b.

Definition is_body (d : Document) (e : Element) : bool :=
  match body d with
  | Some b => Nat.eqb (node e) b
  | None => false
  end.

Definition is_documentElement (d : Document) (e : Element) : bool :=
  Nat.eqb (node e) (documentElement d).

(* ================================================================== *)
(** ** Locators *)

(** The thirteen values of [locator.type]. *)
Inductive LocatorType : Type :=
| TestId | Role | AriaLabel | RoleAttr | Label | Text | Placeholder
| Alt | Title | Name | Id | Css | XPath.

Definition type_name (t : LocatorType) : string :=
  match t with
  | TestId => "test-id"
  | Role => "role"
  | AriaLabel => "aria-label"
  | RoleAttr => "role-attr"
  | Label => "label"
  | Text => "text"
  | Placeholder => "placeholder"
  | Alt => "alt"
  | Title => "title"
  | Name => "name"
  | Id => "id"
  | Css => "css"
  | XPath => "xpath"
  end.

Definition all_types : list LocatorType :=
  [TestId; Role; AriaLabel; RoleAttr; Label; Text; Placeholder;
   Alt; Title; Name; Id; Css; XPath].

Definition LocatorType_eqb (a b : LocatorType) : bool :=
  String.eqb (type_name a) (type_name b).

(** The three values of [locator.queryType]. *)
Inductive QueryType : Type :=
| QCss | QXPath | QPlaywright.

Record Locator : Type := mkLocator {
  type : LocatorType;
  value : string;
  reason : string;
  queryType : QueryType;
  accessibleName : option string
}.

Inductive Stability : Type :=
| Excellent | Good | Fair | Poor.

(** A locator after [rankLocators]: the locator's own fields plus
    [score] and [stability]. *)
Record RankedLocator : Type := mkRanked {
  locator : Locator;
  score : Z;
  stability : Stability
}.

Definition q : string := JSString.quote.

(* ================================================================== *)
(** ** The methods of [LocatorInspector] *)

(** [getImplicitRole(element)]. *)
Definition roleMap (tag : string) : option string :=
  if String.eqb tag "BUTTON" then Some "button"
  else if String.eqb tag "A" then Some "link"
  else if String.eqb tag "INPUT" then Some "textbox"
  else if String.eqb tag "TEXTAREA" then Some "textbox"
  else if String.eqb tag "SELECT" then Some "combobox"
  else if String.eqb tag "H1" then Some "heading"
  else if String.eqb tag "H2" then Some "heading"
  else if String.eqb tag "H3" then Some "heading"
  else if String.eqb tag "H4" then Some "heading"
  else if String.eqb tag "H5" then Some "heading"
  else if String.eqb tag "H6" then Some "heading"
  else if String.eqb tag "NAV" then Some "navigation"
  else if String.eqb tag "MAIN" then Some "main"
  else if String.eqb tag "FORM" then Some "form"
  else None.

Definition is_value (v : option string) (s : string) : bool :=
  match v with
  | Some x => String.eqb x s
  | None => false
  end.

Definition getImplicitRole (e : Element) : option string :=
  let role := roleMap (tagName e) in
  if String.eqb (tagName e) "INPUT" then
    let ty := getAttribute e "type" in
    if is_value ty "checkbox" then Some "checkbox"
    else if is_value ty "radio" then Some "radio"
    else if is_value ty "submit" then Some "button"
    else if is_value ty "button" then Some "button"
    else role
  else role.

(** The selector [label[for=Qid Q]] (Q the double quote) that both
    [getAccessibleName] and [generateLocators] hand to [querySelector],
    with the id pasted in as it is. *)
Definition labelForSelector (i : string) : string :=
  "label[for=" ++ q ++ i ++ q ++ "]".

(** [getAccessibleName(element)]. *)
Definition getAccessibleName (d : Document) (e : Element)
  : Completion (option string) :=
  let ariaLabel := getAttribute e "aria-label" in
  if truthy ariaLabel then Normal ariaLabel else
  let ariaLabelledBy := getAttribute e "aria-labelledby" in
  match (if truthy ariaLabelledBy
         then match ariaLabelledBy with
              | Some ref => getElementById d ref
              | None => None
              end
         else None) with
  | Some labelEl => Normal (Some (JSString.trim (textContent labelEl)))
  | None =>
  let text := JSString.trim (textContent e) in
  if String.eqb (tagName e) "BUTTON" && truthy_string text
  then Normal (Some text) else
  fromInput <-
    (if String.eqb (tagName e) "INPUT" then
       fromLabel <-
         (if truthy_string (id e) then
            label <- querySelector d (labelForSelector (id e)) ;;
            Normal (match label with
                    | Some l => Some (JSString.trim (textContent l))
                    | None => None
                    end)
          else Normal None) ;;
       match fromLabel with
       | Some t => Normal (Some t)
       | None =>
           let placeholder := getAttribute e "placeholder" in
           Normal (if truthy placeholder then placeholder else None)
       end
     else Normal None) ;;
  match fromInput with
  | Some n => Normal (Some n)
  | None =>
  if String.eqb (tagName e) "A" && truthy_string text
  then Normal (Some text) else
  let alt := getAttribute e "alt" in
  if String.eqb (tagName e) "IMG" && truthy alt
  then Normal alt
  else Normal None
  end
  end.

(** [isElementVisible(element)]. *)
Definition isElementVisible (e : Element) : bool :=
  negb (Z.eqb (rect_width (boundingClientRect e)) 0) &&
  negb (Z.eqb (rect_height (boundingClientRect e)) 0) &&
  negb (String.eqb (style_visibility (computedStyle e)) "hidden") &&
  negb (String.eqb (style_display (computedStyle e)) "none") &&
  negb (String.eqb (style_opacity (computedStyle e)) "0").

(** [hasDynamicParts(str)]: the seven patterns, in source order. *)
Definition dynamicPatterns : list Regex.re :=
  let d := Regex.digit in
  let h := Regex.hex_i in
  let dash := Regex.lit "-"%char in
  [ Regex.at_least 4 d;
    Regex.seq [Regex.times 8 h; dash; Regex.times 4 h; dash;
               Regex.times 4 h; dash; Regex.times 4 h; dash;
               Regex.times 12 h];
    Regex.Cat (Regex.lit "#"%char) (Regex.times 6 h);
    Regex.seq [Regex.lit_i "j"%char; Regex.lit_i "s"%char;
               Regex.lit_i "s"%char; Regex.plus d];
    Regex.seq [Regex.plus Regex.letter_i; Regex.plus d;
               Regex.plus Regex.letter_i; Regex.plus d];
    Regex.Cat (Regex.lit ":"%char) (Regex.plus d);
    Regex.at_least 13 d ].

Definition hasDynamicParts (str : string) : bool :=
  if negb (truthy_string str) then false
  else existsb (fun pattern => Regex.test pattern str) dynamicPatterns.

(** [getStableText(element)]. *)
Definition getStableText (e : Element) : option string :=
  let text := JSString.trim (textContent e) in
  if negb (truthy_string text) then None
  else Some (String.substring 0 100 (JSString.collapse_ws text)).

(** One level of the walk of [generateCssSelector]. *)
Definition cssLevel (current : Element) : string :=
  let selector := JSString.toLowerCase (tagName current) in
  let selector :=
    match className current with
    | ClassString cn =>
        if truthy_string cn then
          let firstClass := JSString.before_space cn in
          if truthy_string firstClass &&
             negb (JSString.includes_char ":"%char firstClass)
          then selector ++ "." ++ firstClass
          else selector
        else selector
    | ClassAnimated => selector
    end in
  let fix firstAttr (attrs : list string) : string :=
    match attrs with
    | [] => selector
    | attr :: rest =>
        match getAttribute current attr with
        | Some v =>
            if truthy_string v && negb (hasDynamicParts v)
            then selector ++ "[" ++ attr ++ "=" ++ q ++ v ++ q ++ "]"
            else firstAttr rest
        | None => firstAttr rest
        end
    end in
  firstAttr ["name"; "placeholder"; "title"; "type"].

(** The loop of [generateCssSelector]; [fuel] is [5 - depth]. *)
Fixpoint cssWalk (d : Document) (fuel : nat) (current : Element)
  (parts : list string) : list string :=
  match fuel with
  | O => parts
  | S fuel' =>
      if is_body d current then parts
      else
        let parts' := cssLevel current :: parts in
        match parentElement current with
        | Some p => cssWalk d fuel' p parts'
        | None => parts'
        end
  end.

(** [generateCssSelector(element)]. *)
Definition generateCssSelector (d : Document) (e : Element) : string :=
  if truthy_string (id e) then "#" ++ id e
  else JSString.join " > " (cssWalk d 5 e []).

(** One level of the walk of [generateXPath]. *)
Definition xpathLevel (current : Element) : string :=
  let index :=
    List.length (filter (fun t => String.eqb t (tagName current))
                        (previousElementSiblings current)) in
  let tag := JSString.toLowerCase (tagName current) in
  match index with
  | O => tag
  | S _ => tag ++ "[" ++ JSString.of_nat (index + 1) ++ "]"
  end.

(** The loop of [generateXPath]: up to the root element. *)
Fixpoint xpathWalk (d : Document) (current : Element) (parts : list string)
  : list string :=
  let parts' := xpathLevel current :: parts in
  if is_documentElement d current then parts'
  else
    match parentElement current with
    | Some p => xpathWalk d p parts'
    | None => parts'
    end.

(** [generateXPath(element)]. *)
Definition generateXPath (d : Document) (e : Element) : string :=
  if truthy_string (id e) then "//*[@id=" ++ q ++ id e ++ q ++ "]"
  else "/" ++ JSString.join "/" (xpathWalk d e []).

(** A conditional [locators.push(...)]. *)
Definition push_if (c : bool) (l : Locator) : list Locator :=
  if c then [l] else [].

Definition unwrap (v : option string) : string :=
  match v with
  | Some s => s
  | None => ""
  end.

(** [generateLocators(element)]: the thirteen pushes, in order. *)
Definition generateLocators (d : Document) (e : Element)
  : Completion (list Locator) :=
  (* 1. Test ID *)
  let testId :=
    js_or (getAttribute e "data-testid")
      (js_or (getAttribute e "data-test-id")
         (js_or (getAttribute e "data-test")
            (js_or (getAttribute e "data-qa")
               (getAttribute e "data-cy")))) in
  let l1 :=
    push_if (truthy testId)
      (mkLocator TestId ("[data-testid=" ++ q ++ unwrap testId ++ q ++ "]")
         "Explicit test identifier" QCss None) in
  (* 2. ARIA role with accessible name *)
  let role := js_or (getAttribute e "role") (getImplicitRole e) in
  name <- getAccessibleName d e ;;
  let l2 :=
    push_if (truthy role && truthy name)
      (mkLocator Role ("role=" ++ q ++ unwrap role ++ q)
         "ARIA role with accessible name" QCss name) in
  (* 3. ARIA label *)
  let ariaLabel := getAttribute e "aria-label" in
  let l3 :=
    push_if (truthy ariaLabel)
      (mkLocator AriaLabel ("[aria-label=" ++ q ++ unwrap ariaLabel ++ q ++ "]")
         "Accessibility label" QCss None) in
  (* 4. ARIA role attribute only *)
  let ariaRole := getAttribute e "role" in
  let l4 :=
    push_if (truthy ariaRole && negb (truthy name))
      (mkLocator RoleAttr ("[role=" ++ q ++ unwrap ariaRole ++ q ++ "]")
         "ARIA role attribute" QCss None) in
  (* 5. Form label association *)
  l5 <-
    (if truthy_string (id e) then
       label <- querySelector d (labelForSelector (id e)) ;;
       Normal
         (match label with
          | Some l =>
              let labelText := JSString.trim (textContent l) in
              [mkLocator Label
                 ("label:has-text(" ++ q ++ labelText ++ q ++ ")")
                 "Form label association" QPlaywright None]
          | None => []
          end)
     else Normal []) ;;
  (* 6. Text content *)
  let text := getStableText e in
  let l6 :=
    push_if (truthy text && (String.length (unwrap text) <? 100)%nat)
      (mkLocator Text ("text=" ++ q ++ unwrap text ++ q)
         "Visible text content" QPlaywright None) in
  (* 7. Placeholder *)
  let placeholder := getAttribute e "placeholder" in
  let l7 :=
    push_if (truthy placeholder)
      (mkLocator Placeholder
         ("[placeholder=" ++ q ++ unwrap placeholder ++ q ++ "]")
         "Input placeholder" QCss None) in
  (* 8. Alt text *)
  let alt := getAttribute e "alt" in
  let l8 :=
    push_if (truthy alt)
      (mkLocator Alt ("img[alt=" ++ q ++ unwrap alt ++ q ++ "]")
         "Image alt text" QCss None) in
  (* 9. Title attribute *)
  let title := getAttribute e "title" in
  let l9 :=
    push_if (truthy title)
      (mkLocator Title ("[title=" ++ q ++ unwrap title ++ q ++ "]")
         "Title attribute" QCss None) in
  (* 10. Name attribute *)
  let name_ := getAttribute e "name" in
  let l10 :=
    push_if (truthy name_)
      (mkLocator Name ("[name=" ++ q ++ unwrap name_ ++ q ++ "]")
         "Form element name" QCss None) in
  (* 11. ID attribute *)
  let l11 :=
    push_if (truthy_string (id e) &&
             negb (JSString.includes_char ":"%char (id e)))
      (mkLocator Id ("#" ++ id e) "Element ID" QCss None) in
  (* 12. CSS selector *)
  let cssSelector := generateCssSelector d e in
  let l12 :=
    push_if (truthy_string cssSelector)
      (mkLocator Css cssSelector "CSS selector" QCss None) in
  (* 13. XPath *)
  let xpath := generateXPath d e in
  let l13 := [mkLocator XPath xpath "XPath selector" QXPath None] in
  Normal (l1 ++ l2 ++ l3 ++ l4 ++ l5 ++ l6 ++ l7 ++ l8 ++ l9 ++ l10
             ++ l11 ++ l12 ++ l13)%list.

(** The expression [est] of the [playwright] branch of
    [getMatchCount]: the three chained [replace] calls. *)
Definition playwrightEstimate (v : string) : string :=
  JSString.remove_quotes
    (JSString.replace_first ("label:has-text(" ++ q) (q ++ ")") "label"
       (JSString.replace_first ("text=" ++ q) q "" v)).

(** [n || 1]. *)
Definition or_one (n : nat) : nat :=
  match n with
  | O => 1%nat
  | S _ => n
  end.

(** [getMatchCount(locator)]: each branch in its own [try], the whole
    in an outer [try]. *)
Definition getMatchCount (d : Document) (l : Locator) : Completion nat :=
  try_catch
    (match queryType l with
     | QXPath =>
         try_catch (evaluate d (value l)) (Normal 0%nat)
     | QCss =>
         try_catch (querySelectorAll d (value l)) (Normal 0%nat)
     | QPlaywright =>
         let est := playwrightEstimate (value l) in
         try_catch (n <- querySelectorAll d est ;; Normal (or_one n))
                   (Normal 1%nat)
     end)
    (Normal 0%nat).

(** The table [typeBonuses] of [calculateScore]. *)
Definition typeBonuses (t : LocatorType) : Z :=
  match t with
  | Role => 90
  | TestId => 85
  | AriaLabel => 80
  | RoleAttr => 70
  | Name => 60
  | Id => 55
  | Placeholder => 50
  | Label => 45
  | Alt => 40
  | Title => 35
  | Text => 20
  | Css => 15
  | XPath => 10
  end%Z.

(** The uniqueness term of [calculateScore]. *)
Definition uniquenessTerm (matchCount : nat) : Z :=
  match matchCount with
  | 1%nat => 10
  | O => -20
  | _ => - ((Z.of_nat matchCount - 1) * 5)
  end%Z.

Definition lengthTerm (v : string) : Z :=
  let n := String.length v in
  (if (n <? 30)%nat then 5
   else if (150 <? n)%nat then -10
   else 0)%Z.

(** [calculateScore(locator, element)]. *)
Definition calculateScore (d : Document) (l : Locator) (e : Element)
  : Completion Z :=
  let score := 50%Z in
  let score := (score + typeBonuses (type l))%Z in
  matchCount <- getMatchCount d l ;;
  let score := (score + uniquenessTerm matchCount)%Z in
  let score := (if hasDynamicParts (value l) then score - 30 else score)%Z in
  let score := (if isElementVisible e then score + 5 else score)%Z in
  let score := (score + lengthTerm (value l))%Z in
  Normal (Z.max 0 (Z.min 100 score)).

(** [getStabilityLevel(score)]. *)
Definition getStabilityLevel (score : Z) : Stability :=
  if (80 <=? score)%Z then Excellent
  else if (60 <=? score)%Z then Good
  else if (40 <=? score)%Z then Fair
  else Poor.

(** The comparator [(a, b) => b.score - a.score]. *)
Definition compareFn (a b : RankedLocator) : Z :=
  (score b - score a)%Z.

(** [Array.prototype.sort(compareFn)].  The language fixes the result,
    not the algorithm: the sort is stable.  Insertion from the right is
    one such sort: an element goes before the first later element that
    the comparator does not put ahead of it. *)
Fixpoint insert (x : RankedLocator) (l : list RankedLocator)
  : list RankedLocator :=
  match l with
  | [] => [x]
  | y :: rest =>
      if (compareFn x y <=? 0)%Z then x :: y :: rest
      else y :: insert x rest
  end.

Fixpoint sort (l : list RankedLocator) : list RankedLocator :=
  match l with
  | [] => []
  | x :: rest => insert x (sort rest)
  end.

(** [rankLocators(locators, element)]. *)
Definition rankLocators (d : Document) (locators : list Locator)
  (e : Element) : Completion (list RankedLocator) :=
  ranked <-
    mapM (fun l =>
            s <- calculateScore d l e ;;
            Normal (mkRanked l s (getStabilityLevel s)))
         locators ;;
  Normal (sort ranked).

(** The result of [buildLocatorInfo]; the fields that only feed the
    rendering ([position], [size], [domSnippet], [ariaTree]) are left
    out. *)
Record LocatorInfo : Type := mkInfo {
  tag : string;
  isVisible : bool;
  locators : list RankedLocator;
  info_attributes : list (string * string)
}.

(** [buildLocatorInfo(element)]. *)
Definition buildLocatorInfo (d : Document) (e : Element)
  : Completion LocatorInfo :=
  ls <- generateLocators d e ;;
  rankedLocators <- rankLocators d ls e ;;
  Normal (mkInfo (JSString.toLowerCase (tagName e))
                 (isElementVisible e)
                 rankedLocators
                 (attributes e)).

(* ================================================================== *)
(** ** Framework conversion *)

(** [value.match(/attr=Q([^Q]+)Q/)?.[1]], Q the double quote. *)
Definition attrCapture (attr : string) (v : string) : option string :=
  JSString.capture (attr ++ "=" ++ q) q v.

(** [value.match(/label:has-text\(Q([^Q]+)Q\)/)?.[1]]. *)
Definition labelCapture (v : string) : option string :=
  JSString.capture ("label:has-text(" ++ q) (q ++ ")") v.

(** [captured ? template(captured) : fallback]. *)
Definition with_capture (c : option string) (template : string -> string)
  (fallback : string) : string :=
  match c with
  | Some x => template x
  | None => fallback
  end.

(** The [default:] branch of the [switch] in [convertToPlaywright]. *)
Definition playwrightDefault (l : Locator) : string :=
  "page.locator('" ++ value l ++ "')".

(** The [case] labels of the [switch] in [convertToPlaywright], each with
    its body; [None] where the [switch] has no label for the type. *)
Definition playwrightCase (t : LocatorType) : option (Locator -> string) :=
  match t with
  | TestId => Some (fun l =>
      with_capture (attrCapture "data-testid" (value l))
        (fun testId => "page.getByTestId('" ++ testId ++ "')") (value l))
  | Role => Some (fun l =>
      match attrCapture "role" (value l) with
      | Some roleMatch =>
          if truthy (accessibleName l)
          then "page.getByRole('" ++ roleMatch ++ "', { name: '"
                 ++ unwrap (accessibleName l) ++ "' })"
          else value l
      | None => value l
      end)
  | RoleAttr => Some (fun l =>
      with_capture (attrCapture "role" (value l))
        (fun role => "page.getByRole('" ++ role ++ "')") (value l))
  | AriaLabel => Some (fun l =>
      with_capture (attrCapture "aria-label" (value l))
        (fun ariaLabel => "page.getByLabel('" ++ ariaLabel ++ "')") (value l))
  | Text => Some (fun l =>
      with_capture (attrCapture "text" (value l))
        (fun text => "page.getByText('" ++ text ++ "')") (value l))
  | Placeholder => Some (fun l =>
      with_capture (attrCapture "placeholder" (value l))
        (fun placeholder => "page.getByPlaceholder('" ++ placeholder ++ "')")
        (value l))
  | Alt => Some (fun l =>
      with_capture (attrCapture "alt" (value l))
        (fun alt => "page.getByAltText('" ++ alt ++ "')") (value l))
  | Label => Some (fun l =>
      with_capture (labelCapture (value l))
        (fun labelText => "page.getByLabel('" ++ labelText ++ "')") (value l))
  | Id => Some (fun l =>
      "page.locator('#" ++ JSString.remove_first_hash (value l) ++ "')")
  | Name => Some (fun l =>
      with_capture (attrCapture "name" (value l))
        (fun name => "page.getByRole('textbox', { name: '" ++ name ++ "' })")
        ("page.locator('" ++ value l ++ "')"))
  | Css => Some (fun l => "page.locator('" ++ value l ++ "')")
  | XPath => Some (fun l => "page.locator('xpath=" ++ value l ++ "')")
  | Title => None
  end.

(** [convertToPlaywright(locator)]. *)
Definition convertToPlaywright (l : Locator) : string :=
  match playwrightCase (type l) with
  | Some body => body l
  | None => playwrightDefault l
  end.

(** The [default:] branch of the [switch] in [convertToSelenium]. *)
Definition seleniumDefault (l : Locator) : string :=
  "driver.find_element(By.CSS_SELECTOR, '" ++ value l ++ "')".

(** The [case] labels of the [switch] in [convertToSelenium]. *)
Definition seleniumCase (t : LocatorType) : option (Locator -> string) :=
  match t with
  | Id => Some (fun l =>
      "driver.find_element(By.ID, '"
        ++ JSString.remove_first_hash (value l) ++ "')")
  | Css => Some (fun l =>
      "driver.find_element(By.CSS_SELECTOR, '" ++ value l ++ "')")
  | XPath => Some (fun l =>
      "driver.find_element(By.XPATH, '" ++ value l ++ "')")
  | TestId => Some (fun l =>
      with_capture (attrCapture "data-testid" (value l))
        (fun testId =>
           "driver.find_element(By.CSS_SELECTOR, '[data-testid="
             ++ q ++ testId ++ q ++ "]')")
        (value l))
  | Name => Some (fun l =>
      with_capture (attrCapture "name" (value l))
        (fun name => "driver.find_element(By.NAME, '" ++ name ++ "')")
        (value l))
  | AriaLabel => Some (fun l =>
      with_capture (attrCapture "aria-label" (value l))
        (fun ariaLabel =>
           "driver.find_element(By.CSS_SELECTOR, '[aria-label="
             ++ q ++ ariaLabel ++ q ++ "]')")
        (value l))
  | Placeholder => Some (fun l =>
      with_capture (attrCapture "placeholder" (value l))
        (fun placeholder =>
           "driver.find_element(By.CSS_SELECTOR, '[placeholder="
             ++ q ++ placeholder ++ q ++ "]')")
        (value l))
  | Label => Some (fun l =>
      with_capture (labelCapture (value l))
        (fun labelText =>
           "driver.find_element(By.XPATH, " ++ q
             ++ "//label[contains(text(), '" ++ labelText
             ++ "')]/..//*[@name]" ++ q ++ ")")
        (value l))
  | Text => Some (fun l =>
      with_capture (attrCapture "text" (value l))
        (fun text =>
           "driver.find_element(By.XPATH, " ++ q
             ++ "//*[contains(text(), '" ++ text ++ "')]" ++ q ++ ")")
        (value l))
  | Alt => Some (fun l =>
      with_capture (attrCapture "alt" (value l))
        (fun alt =>
           "driver.find_element(By.CSS_SELECTOR, 'img[alt="
             ++ q ++ alt ++ q ++ "]')")
        (value l))
  | Role => Some (fun l =>
      with_capture (attrCapture "role" (value l))
        (fun role =>
           "driver.find_element(By.CSS_SELECTOR, '[role="
             ++ q ++ role ++ q ++ "]')")
        (value l))
  | RoleAttr => None
  | Title => None
  end.

(** [convertToSelenium(locator)]. *)
Definition convertToSelenium (l : Locator) : string :=
  match seleniumCase (type l) with
  | Some body => body l
  | None => seleniumDefault l
  end.

(** [convertToFramework(locator, framework)]. *)
Definition convertToFramework (l : Locator) (framework : string) : string :=
  let f := JSString.toLowerCase framework in
  if String.eqb f "playwright" then convertToPlaywright l
  else if String.eqb f "selenium" then convertToSelenium l
  else value l.

(** The expression [generateLocators] writes for a candidate of each
    type, as a function of the literal it embeds (for [css] and [xpath]
    the whole expression is the literal). *)
Definition generatedExpression (t : LocatorType) (x : string) : string :=
  match t with
  | TestId => "[data-testid=" ++ q ++ x ++ q ++ "]"
  | Role => "role=" ++ q ++ x ++ q
  | AriaLabel => "[aria-label=" ++ q ++ x ++ q ++ "]"
  | RoleAttr => "[role=" ++ q ++ x ++ q ++ "]"
  | Label => "label:has-text(" ++ q ++ x ++ q ++ ")"
  | Text => "text=" ++ q ++ x ++ q
  | Placeholder => "[placeholder=" ++ q ++ x ++ q ++ "]"
  | Alt => "img[alt=" ++ q ++ x ++ q ++ "]"
  | Title => "[title=" ++ q ++ x ++ q ++ "]"
  | Name => "[name=" ++ q ++ x ++ q ++ "]"
  | Id => "#" ++ x
  | Css => x
  | XPath => x
  end.

(* ================================================================== *)
(** ** What selector engines reject *)

(** A selector that opens with an identifier directly followed by [=].
    After a type selector only an id, class, attribute or pseudo
    selector, a combinator or a comma may follow, so every such string
    is rejected by [querySelectorAll]. *)
Definition ident_char (c : ascii) : bool :=
  JSString.is_lower c || JSString.is_upper c || JSString.is_digit c
  || Ascii.eqb c "-"%char || Ascii.eqb c "_"%char.

Fixpoint ident_rest_equals (s : string) : bool :=
  match s with
  | EmptyString => false
  | String c s' =>
      if Ascii.eqb c "="%char then true
      else if ident_char c then ident_rest_equals s'
      else false
  end.

Definition identThenEquals (s : string) : bool :=
  match s with
  | EmptyString => false
  | String c s' =>
      (JSString.is_lower c || JSString.is_upper c) && ident_rest_equals s'
  end.

(** An id made of letters, digits and an odd number of double quotes.
    Pasted between the quotes of [label[for=...]], its first quote ends
    the attribute value and its last one opens a string that swallows
    the closing bracket, so a string token is left over inside the
    brackets: [querySelector] rejects the selector. *)
Fixpoint count_quotes (s : string) : nat :=
  match s with
  | EmptyString => O
  | String c s' =>
      if JSString.is_quote c then S (count_quotes s') else count_quotes s'
  end.

Fixpoint alnum_or_quote (s : string) : bool :=
  match s with
  | EmptyString => true
  | String c s' =>
      (JSString.is_lower c || JSString.is_upper c || JSString.is_digit c
       || JSString.is_quote c) && alnum_or_quote s'
  end.

Definition quoteBreaks (x : string) : bool :=
  alnum_or_quote x && Nat.odd (count_quotes x).

(* ================================================================== *)
(** ** Sample pages *)

Module Samples.

Definition shown : CSSStyle := mkStyle "visible" "block" "1".
Definition box : DOMRect := mkRect 120 40.

Definition html : Element :=
  mkElement 0 "HTML" [] (ClassString "") "" [] (mkRect 800 600) shown None.

Definition bodyEl : Element :=
  mkElement 1 "BODY" [] (ClassString "") "" ["HEAD"] (mkRect 800 600) shown
            (Some html).

(** A page: the selectors and paths that match something, with their
    counts, and the labels and ids it holds.  The empty selector and
    selectors of the two rejected shapes raise; any other query not
    listed matches nothing. *)
Definition lookup_count (s : string) (t : list (string * nat)) : nat :=
  match find (fun p => String.eqb (fst p) s) t with
  | Some p => snd p
  | None => O
  end.

Definition lookup_element (s : string) (t : list (string * Element))
  : option Element :=
  match find (fun p => String.eqb (fst p) s) t with
  | Some p => Some (snd p)
  | None => None
  end.

Definition rejected (s : string) : bool :=
  String.eqb s "" || identThenEquals s.

Definition page (selectors paths : list (string * nat))
  (labels ids : list (string * Element)) : Document :=
  mkDocument (Some 1%nat) 0%nat
    (fun s =>
       if rejected s then Throw SyntaxError
       else if existsb (fun x =>
                 String.eqb s (labelForSelector x) && quoteBreaks x)
               (map fst ids)
       then Throw SyntaxError
       else Normal (lookup_element s labels))
    (fun s => if rejected s then Throw SyntaxError
              else Normal (lookup_count s selectors))
    (fun p => Normal (lookup_count p paths))
    (fun i => lookup_element i ids).

(** [<button data-testid=login-btn aria-label='Sign in'>Login</button>],
    the only button of its page. *)
Definition loginButton : Element :=
  mkElement 2 "BUTTON"
    [("data-testid", "login-btn"); ("aria-label", "Sign in")]
    (ClassString "") "Login" [] box shown (Some bodyEl).

Definition loginPage : Document :=
  page [("[data-testid=" ++ q ++ "login-btn" ++ q ++ "]", 1%nat);
        ("[aria-label=" ++ q ++ "Sign in" ++ q ++ "]", 1%nat);
        ("button", 1%nat)]
       [("/html/body/button", 1%nat)]
       [] [].

(** [<div id=aQb>] where Q is a double quote: a legal id. *)
Definition quotedId : string := "a" ++ q ++ "b".

Definition quotedIdDiv : Element :=
  mkElement 2 "DIV" [("id", quotedId)] (ClassString "") "" [] box shown
            (Some bodyEl).

Definition quotedIdPage : Document :=
  page [] [("//*[@id=" ++ q ++ quotedId ++ q ++ "]", 1%nat)]
       [] [(quotedId, quotedIdDiv)].

(** [<button aria-label=''>Click me</button>]. *)
Definition emptyAriaButton : Element :=
  mkElement 2 "BUTTON" [("aria-label", "")] (ClassString "") "Click me" []
            box shown (Some bodyEl).

(** [<button aria-label='Save'>Click me</button>]. *)
Definition saveButton : Element :=
  mkElement 2 "BUTTON" [("aria-label", "Save")] (ClassString "") "Click me" []
            box shown (Some bodyEl).

Definition buttonPage : Document :=
  page [("button", 1%nat);
        ("[aria-label=" ++ q ++ "Save" ++ q ++ "]", 1%nat)]
       [("/html/body/button", 1%nat)] [] [].

(** [<div id='a:b'>] inside [<section class=main>]. *)
Definition sectionEl : Element :=
  mkElement 2 "SECTION" [("class", "main")] (ClassString "main") "" [] box
            shown (Some bodyEl).

Definition colonIdDiv : Element :=
  mkElement 3 "DIV" [("id", "a:b")] (ClassString "") "" [] box shown
            (Some sectionEl).

Definition colonPage : Document :=
  page [("section.main > div", 1%nat)]
       [("//*[@id=" ++ q ++ "a:b" ++ q ++ "]", 1%nat)]
       [] [("a:b", colonIdDiv)].

(** [<p>] holding one hundred times the letter x, and one holding
    ninety-nine. *)
Fixpoint xs (n : nat) : string :=
  match n with
  | O => EmptyString
  | S k => String "x"%char (xs k)
  end.

Definition hundredP : Element :=
  mkElement 2 "P" [] (ClassString "") (xs 100) [] box shown (Some bodyEl).

Definition ninetyNineP : Element :=
  mkElement 2 "P" [] (ClassString "") (xs 99) [] box shown (Some bodyEl).

Definition textPage : Document :=
  page [("p", 1%nat)] [("/html/body/p", 1%nat)] [] [].

(** The same page under a hypothetical engine that accepts the
    expression [role=QbuttonQ] and counts the button for it, so that the
    role candidate too has match count 1. *)
Definition lenientLoginPage : Document :=
  mkDocument (Some 1%nat) 0%nat
    (fun _ => Normal None)
    (fun s =>
       if String.eqb s "" then Throw SyntaxError
       else Normal (lookup_count s
              [("[data-testid=" ++ q ++ "login-btn" ++ q ++ "]", 1%nat);
               ("role=" ++ q ++ "button" ++ q, 1%nat);
               ("[aria-label=" ++ q ++ "Sign in" ++ q ++ "]", 1%nat);
               ("button", 1%nat)]))
    (fun p => Normal (lookup_count p [("/html/body/button", 1%nat)]))
    (fun _ => None).

(** The candidates of the login button. *)
Definition loginTestId : Locator :=
  mkLocator TestId ("[data-testid=" ++ q ++ "login-btn" ++ q ++ "]")
            "Explicit test identifier" QCss None.

(** The role candidate of the login button. *)
Definition loginRole : Locator :=
  mkLocator Role ("role=" ++ q ++ "button" ++ q)
            "ARIA role with accessible name" QCss (Some "Sign in").

(** The candidates [[title=QHelpQ]] and [[role=QtabQ]]. *)
Definition titleLocator : Locator :=
  mkLocator Title ("[title=" ++ q ++ "Help" ++ q ++ "]") "Title attribute"
            QCss None.

Definition roleAttrLocator : Locator :=
  mkLocator RoleAttr ("[role=" ++ q ++ "tab" ++ q ++ "]")
            "ARIA role attribute" QCss None.

(** The placeholder candidate of [<input placeholder='say QhiQ'>]. *)
Definition quotedPlaceholder : string := "say " ++ q ++ "hi" ++ q.

Definition quotedPlaceholderLocator : Locator :=
  mkLocator Placeholder (generatedExpression Placeholder quotedPlaceholder)
            "Input placeholder" QCss None.

End Samples.

(* ================================================================== *)
(** ** Vocabulary of the statements *)

(** A string without a double quote. *)
Definition unquoted (x : string) : Prop := count_quotes x = O.

(** [calculateScore] gives the locator the score [s]. *)
Definition has_score (d : Document) (e : Element) (s : Z) (l : Locator)
  : bool :=
  match calculateScore d l e with
  | Normal x => Z.eqb x s
  | Throw _ => false
  end.

Definition of_type (t : LocatorType) (l : Locator) : bool :=
  LocatorType_eqb (type l) t.

(** The element's text as [getStableText] sees it before truncation:
    trimmed, white space collapsed. *)
Definition collapsedText (e : Element) : string :=
  JSString.collapse_ws (JSString.trim (textContent e)).

(** What the [try] blocks of [getMatchCount] return, branch by branch. *)
Definition matchCountOf (d : Document) (l : Locator) : nat :=
  match queryType l with
  | QCss =>
      match querySelectorAll d (value l) with
      | Normal k => k
      | Throw _ => 0%nat
      end
  | QXPath =>
      match evaluate d (value l) with
      | Normal k => k
      | Throw _ => 0%nat
      end
  | QPlaywright =>
      match querySelectorAll d (playwrightEstimate (value l)) with
      | Normal O => 1%nat
      | Normal k => k
      | Throw _ => 1%nat
      end
  end.

(** The sum [calculateScore] clamps. *)
Definition rawScore (d : Document) (l : Locator) (e : Element) : Z :=
  (50 + typeBonuses (type l) + uniquenessTerm (matchCountOf d l)
   + (if hasDynamicParts (value l) then -30 else 0)
   + (if isElementVisible e then 5 else 0)
   + lengthTerm (value l))%Z.

(** The candidate pushed last by [generateLocators]. *)
Definition xpathLocator (d : Document) (e : Element) : Locator :=
  mkLocator XPath (generateXPath d e) "XPath selector" QXPath None.

(** The text candidate of step 6, for a given text. *)
Definition textLocator (x : string) : Locator :=
  mkLocator Text ("text=" ++ q ++ x ++ q) "Visible text content"
            QPlaywright None.

(** The Playwright call expected for a candidate of each type with
    literal [x] and accessible name [n]. *)
Definition playwrightCall (t : LocatorType) (x n : string) : string :=
  match t with
  | TestId => "page.getByTestId('" ++ x ++ "')"
  | Role => "page.getByRole('" ++ x ++ "', { name: '" ++ n ++ "' })"
  | RoleAttr => "page.getByRole('" ++ x ++ "')"
  | AriaLabel => "page.getByLabel('" ++ x ++ "')"
  | Label => "page.getByLabel('" ++ x ++ "')"
  | Text => "page.getByText('" ++ x ++ "')"
  | Placeholder => "page.getByPlaceholder('" ++ x ++ "')"
  | Alt => "page.getByAltText('" ++ x ++ "')"
  | Name => "page.getByRole('textbox', { name: '" ++ x ++ "' })"
  | Id => "page.locator('#" ++ x ++ "')"
  | Css => "page.locator('" ++ x ++ "')"
  | XPath => "page.locator('xpath=" ++ x ++ "')"
  | Title => "page.locator('[title=" ++ q ++ x ++ q ++ "]')"
  end.

(** The Selenium call expected for a candidate of each type with
    literal [x]. *)
Definition seleniumCall (t : LocatorType) (x : string) : string :=
  let by_css sel := "driver.find_element(By.CSS_SELECTOR, '" ++ sel ++ "')" in
  match t with
  | Id => "driver.find_element(By.ID, '" ++ x ++ "')"
  | Name => "driver.find_element(By.NAME, '" ++ x ++ "')"
  | XPath => "driver.find_element(By.XPATH, '" ++ x ++ "')"
  | Label =>
      "driver.find_element(By.XPATH, " ++ q ++ "//label[contains(text(), '"
        ++ x ++ "')]/..//*[@name]" ++ q ++ ")"
  | Text =>
      "driver.find_element(By.XPATH, " ++ q ++ "//*[contains(text(), '"
        ++ x ++ "')]" ++ q ++ ")"
  | Css => by_css x
  | TestId => by_css ("[data-testid=" ++ q ++ x ++ q ++ "]")
  | AriaLabel => by_css ("[aria-label=" ++ q ++ x ++ q ++ "]")
  | Placeholder => by_css ("[placeholder=" ++ q ++ x ++ q ++ "]")
  | Alt => by_css ("img[alt=" ++ q ++ x ++ q ++ "]")
  | Role => by_css ("[role=" ++ q ++ x ++ q ++ "]")
  | RoleAttr => by_css ("[role=" ++ q ++ x ++ q ++ "]")
  | Title => by_css ("[title=" ++ q ++ x ++ q ++ "]")
  end.

(** The literal [x] of an expression of type [t] is one the conversions
    take out whole: the types whose template reads the literal with a
    pattern that stops at a double quote need a non-empty literal without
    one; [id] strips the leading [#], and [css], [xpath] and [title] are
    passed as they are. *)
Definition extractable (t : LocatorType) (x : string) : Prop :=
  match t with
  | Id | Css | XPath | Title => True
  | _ => unquoted x /\ x <> ""
  end.

(** The Playwright output expected for the expression of type [t] with
    literal [x] on a candidate whose [accessibleName] is [n]: the call of
    the type; a role candidate without a name is left as it is. *)
Definition playwrightOutput (t : LocatorType) (x : string)
  (n : option string) : string :=
  match t with
  | Role =>
      if truthy n then playwrightCall Role x (unwrap n)
      else generatedExpression Role x
  | _ => playwrightCall t x (unwrap n)
  end.

(** The entry a locator becomes in [rankLocators]. *)
Definition rankOf (d : Document) (e : Element) (l : Locator)
  : RankedLocator :=
  match calculateScore d l e with
  | Normal s => mkRanked l s (getStabilityLevel s)
  | Throw _ => mkRanked l 0 Poor
  end.

(** The descending order of the ranking. *)
Definition scoreGe (a b : RankedLocator) : Prop := (score b <= score a)%Z.

(** Follows the specification's words (section 4.1, the resolution order
    of the accessible name), to be compared with [getAccessibleName]:
    the steps are tried in this order and the first that matches wins.
    A step matches when it yields [Some name]; an attribute counts only
    when it is present and not empty. *)
Definition present (v : option string) : option string :=
  if truthy v then v else None.

Definition trimmedText (t : Element) : string :=
  JSString.trim (textContent t).

Definition nameSteps (d : Document) (e : Element)
  : list (Completion (option string)) :=
  let is_tag t := String.eqb (tagName e) t in
  let ownText := present (Some (trimmedText e)) in
  [ (* 1. aria-label *)
    Normal (present (getAttribute e "aria-label"));
    (* 2. aria-labelledby *)
    Normal (match present (getAttribute e "aria-labelledby") with
            | Some ref => option_map trimmedText (getElementById d ref)
            | None => None
            end);
    (* 3. button text *)
    Normal (if is_tag "BUTTON" then ownText else None);
    (* 4. input: label[for], then placeholder *)
    (if is_tag "INPUT" && truthy_string (id e)
     then label <- querySelector d (labelForSelector (id e)) ;;
          Normal (option_map trimmedText label)
     else Normal None);
    Normal (if is_tag "INPUT"
            then present (getAttribute e "placeholder") else None);
    (* 5. anchor text *)
    Normal (if is_tag "A" then ownText else None);
    (* 6. img alt *)
    Normal (if is_tag "IMG" then present (getAttribute e "alt") else None) ].

Fixpoint firstMatch (steps : list (Completion (option string)))
  : Completion (option string) :=
  match steps with
  | [] => Normal None
  | step :: rest =>
      r <- step ;;
      match r with
      | Some name => Normal (Some name)
      | None => firstMatch rest
      end
  end.

Definition resolveAccessibleName (d : Document) (e : Element)
  : Completion (option string) :=
  firstMatch (nameSteps d e).

(* ================================================================== *)
(** ** Further methods of [LocatorInspector] *)

(** [escapeHtml(text)]: each of the five characters of the map is
    replaced by its entity. *)
Definition escapeChar (c : ascii) : string :=
  if Ascii.eqb c "&"%char then "&amp;"
  else if Ascii.eqb c "<"%char then "&lt;"
  else if Ascii.eqb c ">"%char then "&gt;"
  else if JSString.is_quote c then "&quot;"
  else if Ascii.eqb c "'"%char then "&#039;"
  else String c EmptyString.

Fixpoint escapeHtml (text : string) : string :=
  match text with
  | EmptyString => EmptyString
  | String c rest => escapeChar c ++ escapeHtml rest
  end.

(** The longest prefix without [>], and what follows it. *)
Fixpoint span_until_gt (s : string) : string * string :=
  match s with
  | EmptyString => (EmptyString, EmptyString)
  | String c s' =>
      if Ascii.eqb c ">"%char then (EmptyString, s)
      else let (body, rest) := span_until_gt s' in (String c body, rest)
  end.

(** [outerHTML.match(/^<[^>]+>/)]: the match, when there is one.  The
    class cannot cross a [>] and the pattern ends with one, so the greedy
    run is the only split that can succeed. *)
Definition openingTag (outerHTML : string) : option string :=
  match outerHTML with
  | String c r =>
      if Ascii.eqb c "<"%char then
        let (body, rest) := span_until_gt r in
        if (1 <=? String.length body)%nat then
          match rest with
          | String _ _ => Some ("<" ++ body ++ ">")
          | EmptyString => None
          end
        else None
      else None
  | EmptyString => None
  end.

(** [getDomSnippet(element, maxLength)], as a function of
    [element.outerHTML]; [buildLocatorInfo] calls it with the default
    [maxLength] of 200. *)
Definition getDomSnippet (outerHTML : string) (maxLength : nat) : string :=
  if (String.length outerHTML <=? maxLength)%nat then outerHTML
  else
    match openingTag outerHTML with
    | Some m => m ++ "..."
    | None => String.substring 0 maxLength outerHTML ++ "..."
    end.

(** A JavaScript object whose values are strings: its keys in insertion
    order, each with its value. *)
Definition JSObject : Type := list (string * string).

(** The entries an element gives for a list of attribute names: the
    attributes that are present ([getAttribute] is not [null]). *)
Definition presentAttributes (e : Element) (names : list string) : JSObject :=
  flat_map (fun k => match getAttribute e k with
                     | Some v => [(k, v)]
                     | None => []
                     end) names.

Definition ariaPathKeys : list string :=
  ["role"; "aria-label"; "aria-describedby"; "aria-labelledby";
   "aria-hidden"; "tabindex"].

(** The object [node] of [getAriaTree], after its [null] values are
    deleted. *)
Definition ariaPathNode (current : Element) : JSObject :=
  ("tag", JSString.toLowerCase (tagName current))
    :: presentAttributes current ariaPathKeys.

(** The loop of [getAriaTree]; [fuel] is [10 - depth]. *)
Fixpoint ariaWalk (d : Document) (fuel : nat) (current : Element)
  (tree : list JSObject) : list JSObject :=
  match fuel with
  | O => tree
  | S fuel' =>
      let node := ariaPathNode current in
      let tree' := if (1 <? List.length node)%nat then node :: tree else tree in
      if is_documentElement d current then tree'
      else
        match parentElement current with
        | Some p => ariaWalk d fuel' p tree'
        | None => tree'
        end
  end.

(** [getAriaTree(element)]. *)
Definition getAriaTree (d : Document) (e : Element) : list JSObject :=
  ariaWalk d 10 e [].

(** A node of the document as [getFullDOMTree] reads it: an element
    with its attributes and child nodes, a text node with its data, or a
    node of another kind (comment, processing instruction, ...) with its
    [nodeName] and [nodeType]. *)
#[warnings="-register-all"] Inductive DomNode : Type :=
| DomElement (tag : string) (attrs : list (string * string))
             (childNodes : list DomNode)
| DomText (data : string)
| DomOther (name : string) (kind : nat).

(** The object [serializeNode] returns. *)
#[warnings="-register-all"] Inductive Serialized : Type :=
| SerElement (nodeName : string) (lowerTag : string)
             (attrs : list (string * string)) (children : list Serialized)
| SerText (text : option string)
| SerOther (nodeName : string) (nodeType : nat).

(** [serializeNode(node, depth)] of [getFullDOMTree]; [fuel] is
    [21 - depth], so that [depth > 20] is [fuel = 0]. *)
Fixpoint serializeNode (fuel : nat) (n : DomNode) : option Serialized :=
  match fuel with
  | O => None
  | S fuel' =>
      Some
        match n with
        | DomElement tag attrs childNodes =>
            SerElement tag (JSString.toLowerCase tag) attrs
              (flat_map (fun child =>
                           match serializeNode fuel' child with
                           | Some r => [r]
                           | None => []
                           end) childNodes)
        | DomText data =>
            let text := JSString.trim data in
            SerText (if truthy_string text then Some text else None)
        | DomOther name kind => SerOther name kind
        end
  end.

(** [getFullDOMTree()], on the document's root element. *)
Definition getFullDOMTree (root : DomNode) : option Serialized :=
  serializeNode 21 root.

(** A whole-string match, for a pattern between [^] and [$]. *)
Fixpoint matches_whole (r : Regex.re) (s : string) : bool :=
  match s with
  | EmptyString => Regex.nullable r
  | String c s' => matches_whole (Regex.deriv c r) s'
  end.

Fixpoint word (s : string) : Regex.re :=
  match s with
  | EmptyString => Regex.Eps
  | String c s' => Regex.Cat (Regex.lit c) (word s')
  end.

(** The test [/^H[1-6]$|BUTTON|A|FORM|INPUT|SELECT|TEXTAREA/] of
    [getFullARIATree]: the anchors bind the first alternative only; the
    others match anywhere in the tag name. *)
Definition isSemanticHTML (tag : string) : bool :=
  matches_whole
    (Regex.Cat (Regex.lit "H"%char)
       (Regex.Chr (fun c => (49 <=? JSString.code c)%nat
                            && (JSString.code c <=? 54)%nat))) tag
  || existsb (fun w => Regex.test (word w) tag)
       ["BUTTON"; "A"; "FORM"; "INPUT"; "SELECT"; "TEXTAREA"].

Definition ariaTreeKeys : list string :=
  ["role"; "aria-label"; "aria-labelledby"; "aria-describedby";
   "aria-hidden"; "aria-expanded"; "aria-pressed"; "aria-checked";
   "aria-selected"; "aria-disabled"; "aria-readonly"; "aria-required";
   "aria-invalid"; "aria-live"; "aria-atomic"; "aria-relevant"; "tabindex"].

(** The [textContent] entry of an [ariaNode]. *)
Definition ariaText (node : Element) : string :=
  String.substring 0 100 (JSString.trim (textContent node)).

(** The object [ariaNode] of [getFullARIATree], after its [null],
    [undefined] and [false] values are deleted. *)
Definition fullAriaNode (node : Element) : JSObject :=
  ((("tag", JSString.toLowerCase (tagName node))
      :: presentAttributes node ariaTreeKeys)
   ++ (if truthy_string (id node) then [("id", id node)] else [])
   ++ match getAttribute node "name" with
      | Some v => [("name", v)]
      | None => []
      end
   ++ match getAttribute node "data-testid" with
      | Some v => [("dataTestId", v)]
      | None => []
      end
   ++ [("textContent", ariaText node)])%list.

(** The four tests that decide whether a node is pushed. *)
Definition hasAriaAttr (node : Element) : bool :=
  existsb (fun attr => truthy (getAttribute node attr))
          ["role"; "aria-label"; "aria-expanded"; "aria-pressed"].

Definition hasIdentifier (node : Element) : bool :=
  truthy_string (id node) || truthy (getAttribute node "name")
  || truthy (getAttribute node "data-testid").

Definition hasContent (node : Element) : bool :=
  truthy_string (ariaText node).

Definition skippedTag (node : Element) : bool :=
  existsb (String.eqb (tagName node)) ["SCRIPT"; "STYLE"; "NOSCRIPT"].

Definition styledAway (node : Element) : bool :=
  String.eqb (style_display (computedStyle node)) "none"
  || String.eqb (style_visibility (computedStyle node)) "hidden".

(** The loop of [getFullARIATree] over the elements the tree walker
    yields, in document order; [processed] is the set [processedNodes]. *)
Fixpoint ariaScan (walker : list Element) (processed : list nat)
  : list JSObject :=
  match walker with
  | [] => []
  | node_ :: rest =>
      if existsb (Nat.eqb (node node_)) processed then ariaScan rest processed
      else
        let processed' := node node_ :: processed in
        if skippedTag node_ then ariaScan rest processed'
        else if styledAway node_ then ariaScan rest processed'
        else if hasAriaAttr node_ || isSemanticHTML (tagName node_)
                || hasIdentifier node_ || hasContent node_
        then fullAriaNode node_ :: ariaScan rest processed'
        else ariaScan rest processed'
  end.

(** The result of [getFullARIATree], without [timestamp] and [url]. *)
Record AriaTree : Type := mkAriaTree {
  totalAriaNodes : nat;
  ariaNodes : list JSObject
}.

(** [getFullARIATree()], on the elements below [document.body]. *)
Definition getFullARIATree (walker : list Element) : AriaTree :=
  let nodes := ariaScan walker [] in
  mkAriaTree (List.length nodes) nodes.

(** The lookup of step 5 of [generateLocators]. *)
Definition labelLookup (d : Document) (e : Element)
  : Completion (option Element) :=
  if truthy_string (id e) then querySelector d (labelForSelector (id e))
  else Normal None.

Definition keep_if (c : bool) (l : Locator) : option Locator :=
  if c then Some l else None.

(** The candidate of each type, when [generateLocators] pushes one,
    given the accessible name and the label element it found. *)
Definition candidateOf (d : Document) (e : Element) (name : option string)
  (label : option Element) (t : LocatorType) : option Locator :=
  match t with
  | TestId =>
      let testId :=
        js_or (getAttribute e "data-testid")
          (js_or (getAttribute e "data-test-id")
             (js_or (getAttribute e "data-test")
                (js_or (getAttribute e "data-qa")
                   (getAttribute e "data-cy")))) in
      keep_if (truthy testId)
        (mkLocator TestId (generatedExpression TestId (unwrap testId))
           "Explicit test identifier" QCss None)
  | Role =>
      let role := js_or (getAttribute e "role") (getImplicitRole e) in
      keep_if (truthy role && truthy name)
        (mkLocator Role (generatedExpression Role (unwrap role))
           "ARIA role with accessible name" QCss name)
  | AriaLabel =>
      let ariaLabel := getAttribute e "aria-label" in
      keep_if (truthy ariaLabel)
        (mkLocator AriaLabel (generatedExpression AriaLabel (unwrap ariaLabel))
           "Accessibility label" QCss None)
  | RoleAttr =>
      let ariaRole := getAttribute e "role" in
      keep_if (truthy ariaRole && negb (truthy name))
        (mkLocator RoleAttr (generatedExpression RoleAttr (unwrap ariaRole))
           "ARIA role attribute" QCss None)
  | Label =>
      match label with
      | Some l =>
          Some (mkLocator Label
                  (generatedExpression Label (JSString.trim (textContent l)))
                  "Form label association" QPlaywright None)
      | None => None
      end
  | Text =>
      let text := getStableText e in
      keep_if (truthy text && (String.length (unwrap text) <? 100)%nat)
        (textLocator (unwrap text))
  | Placeholder =>
      let placeholder := getAttribute e "placeholder" in
      keep_if (truthy placeholder)
        (mkLocator Placeholder
           (generatedExpression Placeholder (unwrap placeholder))
           "Input placeholder" QCss None)
  | Alt =>
      let alt := getAttribute e "alt" in
      keep_if (truthy alt)
        (mkLocator Alt (generatedExpression Alt (unwrap alt))
           "Image alt text" QCss None)
  | Title =>
      let title := getAttribute e "title" in
      keep_if (truthy title)
        (mkLocator Title (generatedExpression Title (unwrap title))
           "Title attribute" QCss None)
  | Name =>
      let name_ := getAttribute e "name" in
      keep_if (truthy name_)
        (mkLocator Name (generatedExpression Name (unwrap name_))
           "Form element name" QCss None)
  | Id =>
      keep_if (truthy_string (id e)
               && negb (JSString.includes_char ":"%char (id e)))
        (mkLocator Id (generatedExpression Id (id e)) "Element ID" QCss None)
  | Css =>
      keep_if (truthy_string (generateCssSelector d e))
        (mkLocator Css (generateCssSelector d e) "CSS selector" QCss None)
  | XPath => Some (xpathLocator d e)
  end.

Definition option_list {A : Type} (o : option A) : list A :=
  match o with
  | Some a => [a]
  | None => []
  end.

(** The enumeration of the thirteen types in their fixed order. *)
Definition enumerateCandidates (d : Document) (e : Element)
  : Completion (list Locator) :=
  name <- getAccessibleName d e ;;
  label <- labelLookup d e ;;
  Normal (flat_map (fun t => option_list (candidateOf d e name label t))
                   all_types).

(** The first [n] characters of [s] exist and satisfy [p]. *)
Fixpoint prefix_run (p : ascii -> bool) (n : nat) (s : string) : bool :=
  match n with
  | O => true
  | S k =>
      match s with
      | EmptyString => false
      | String c s' => p c && prefix_run p k s'
      end
  end.

(** A hexadecimal digit, in either case. *)
Definition is_hex (c : ascii) : bool :=
  let n := JSString.code (JSString.lower_char c) in
  JSString.is_digit c || ((97 <=? n) && (n <=? 102))%nat.

(** [hasDynamicParts] without the last pattern of its list. *)
Definition hasDynamicPartsWithoutTimestamps (str : string) : bool :=
  if negb (truthy_string str) then false
  else existsb (fun pattern => Regex.test pattern str)
               (removelast dynamicPatterns).

(** What is left of [x{n,}] after one character of the class. *)
Definition at_least_rest (n : nat) (x : Regex.re) : Regex.re :=
  Regex.cat (Regex.times n x) (Regex.Star x).

Definition starts_with_ws (s : string) : bool :=
  match s with
  | EmptyString => false
  | String c _ => JSString.is_ws c
  end.

(** Every white-space character of [s] is a plain space, and none is
    followed by another white-space character. *)
Fixpoint single_spaced (s : string) : bool :=
  match s with
  | EmptyString => true
  | String c s' =>
      (if JSString.is_ws c
       then Ascii.eqb c " "%char && negb (starts_with_ws s')
       else true)
      && single_spaced s'
  end.

(** Number of nodes and number of levels of a document tree and of a
    serialized tree. *)
Fixpoint dom_size (n : DomNode) : nat :=
  match n with
  | DomElement _ _ cs => S (fold_right (fun c s => (dom_size c + s)%nat) O cs)
  | DomText _ => 1%nat
  | DomOther _ _ => 1%nat
  end.

Fixpoint dom_height (n : DomNode) : nat :=
  match n with
  | DomElement _ _ cs =>
      S (fold_right (fun c h => Nat.max (dom_height c) h) O cs)
  | DomText _ => 1%nat
  | DomOther _ _ => 1%nat
  end.

Fixpoint ser_size (r : Serialized) : nat :=
  match r with
  | SerElement _ _ _ cs =>
      S (fold_right (fun c s => (ser_size c + s)%nat) O cs)
  | SerText _ => 1%nat
  | SerOther _ _ => 1%nat
  end.

Fixpoint ser_height (r : Serialized) : nat :=
  match r with
  | SerElement _ _ _ cs =>
      S (fold_right (fun c h => Nat.max (ser_height c) h) O cs)
  | SerText _ => 1%nat
  | SerOther _ _ => 1%nat
  end.

(** The children [serializeNode] keeps, for a given remaining depth. *)
Definition serializeChildren (fuel : nat) (cs : list DomNode)
  : list Serialized :=
  flat_map (fun child => match serializeNode fuel child with
                         | Some r => [r]
                         | None => []
                         end) cs.

(** What [getAriaTree] guarantees of each node: the tag first, then at
    least one of the six attributes and nothing else. *)
Definition ariaPathNodeOk (n : JSObject) : Prop :=
  exists tag rest,
    n = ("tag", tag) :: rest /\ rest <> [] /\
    Forall (fun kv => In (fst kv) ariaPathKeys) rest.

(** What [getFullARIATree] guarantees of each node: the tag first and
    the text, of at most 100 characters, last. *)
Definition fullAriaNodeOk (n : JSObject) : Prop :=
  exists tag middle text,
    n = (("tag", tag) :: middle ++ [("textContent", text)])%list /\
    (String.length text <= 100)%nat.

(** ** The inspector's switch *)

(** A registration made with [document.addEventListener]: the event
    type and the identity of the callback function. *)
Record Listener : Type := mkListener {
  eventType : string;
  callback : nat
}.

(** The fields of the inspector that [toggle] touches, and with them
    the listeners registered on the document and the number of function
    objects created so far by [Function.prototype.bind], each call of
    which returns a new function. *)
Record Inspector : Type := mkInspector {
  enabled : bool;
  tooltip : bool;
  panel : bool;
  lastHighlighted : option nat;
  listeners : list Listener;
  bound : nat
}.

(** The state the constructor leaves. *)
Definition newInspector : Inspector :=
  mkInspector false false false None [] 0.

Definition same_listener (t : string) (f : nat) (l : Listener) : bool :=
  String.eqb (eventType l) t && Nat.eqb (callback l) f.

(** [document.addEventListener(type, method.bind(this))]: the bound
    function is new; a registration is added unless the same type and
    callback are registered already. *)
Definition addBoundListener (t : string) (st : Inspector) : Inspector :=
  let f := bound st in
  mkInspector (enabled st) (tooltip st) (panel st) (lastHighlighted st)
    (if existsb (same_listener t f) (listeners st) then listeners st
     else (listeners st ++ [mkListener t f])%list)
    (S f).

(** [document.removeEventListener(type, method.bind(this))]: the bound
    function is new; the registration with that type and callback, if
    any, is removed. *)
Definition removeBoundListener (t : string) (st : Inspector) : Inspector :=
  let f := bound st in
  mkInspector (enabled st) (tooltip st) (panel st) (lastHighlighted st)
    (filter (fun l => negb (same_listener t f l)) (listeners st))
    (S f).

Definition eventTypes : list string :=
  ["mouseover"; "mouseout"; "keydown"; "click"].

(** [activate()]: [createTooltip()], then the four registrations. *)
Definition activate (st : Inspector) : Inspector :=
  let st := mkInspector (enabled st) true (panel st) (lastHighlighted st)
              (listeners st) (bound st) in
  fold_left (fun s t => addBoundListener t s) eventTypes st.

(** [deactivate()]: [removeTooltip()], [removeHighlight()], the four
    removals, [closePanel()]. *)
Definition deactivate (st : Inspector) : Inspector :=
  let st := mkInspector (enabled st) false (panel st) None
              (listeners st) (bound st) in
  let st := fold_left (fun s t => removeBoundListener t s) eventTypes st in
  mkInspector (enabled st) (tooltip st) false (lastHighlighted st)
    (listeners st) (bound st).

(** [toggle()]. *)
Definition toggle (st : Inspector) : Inspector :=
  let st := mkInspector (negb (enabled st)) (tooltip st) (panel st)
              (lastHighlighted st) (listeners st) (bound st) in
  if enabled st then activate st else deactivate st.

(** Every registered callback is a function created earlier. *)
Definition listenersKnown (st : Inspector) : Prop :=
  Forall (fun l => (callback l < bound st)%nat) (listeners st).

(** ** More sample pages *)

Module Cases.

(** [<input id=email placeholder=Email>]. *)
Definition emailInput : Element :=
  mkElement 2 "INPUT" [("id", "email"); ("placeholder", "Email")]
    (ClassString "") "" [] Samples.box Samples.shown (Some Samples.bodyEl).

Definition emailPage : Document :=
  Samples.page
    [("#email", 1%nat); ("[placeholder=" ++ q ++ "Email" ++ q ++ "]", 1%nat)]
    [("//*[@id=" ++ q ++ "email" ++ q ++ "]", 1%nat)]
    [] [("email", emailInput)].

Definition emailId : Locator :=
  mkLocator Id "#email" "Element ID" QCss None.

(** [<input placeholder=Username>], without id, label or name. *)
Definition usernameInput : Element :=
  mkElement 2 "INPUT" [("placeholder", "Username")]
    (ClassString "") "" [] Samples.box Samples.shown (Some Samples.bodyEl).

Definition usernamePage : Document :=
  Samples.page
    [("[placeholder=" ++ q ++ "Username" ++ q ++ "]", 1%nat);
     ("input[placeholder=" ++ q ++ "Username" ++ q ++ "]", 1%nat)]
    [("/html/body/input", 1%nat)] [] [].

(** The placeholder and the structural candidate [generateLocators]
    builds for it. *)
Definition usernamePlaceholder : Locator :=
  mkLocator Placeholder ("[placeholder=" ++ q ++ "Username" ++ q ++ "]")
            "Input placeholder" QCss None.

Definition usernameCss : Locator :=
  mkLocator Css ("input[placeholder=" ++ q ++ "Username" ++ q ++ "]")
            "CSS selector" QCss None.

(** [<h1 role=heading>Welcome</h1>]. *)
Definition heading : Element :=
  mkElement 2 "H1" [("role", "heading")]
    (ClassString "") "Welcome" [] Samples.box Samples.shown
    (Some Samples.bodyEl).

Definition headingPage : Document :=
  Samples.page
    [("[role=" ++ q ++ "heading" ++ q ++ "]", 1%nat); ("h1", 1%nat)]
    [("/html/body/h1", 1%nat)] [] [].

(** The login page after a second button was added to it. *)
Definition twoButtonsPage : Document :=
  Samples.page
    [("[data-testid=" ++ q ++ "login-btn" ++ q ++ "]", 1%nat);
     ("[aria-label=" ++ q ++ "Sign in" ++ q ++ "]", 1%nat);
     ("button", 2%nat)]
    [("/html/body/button", 1%nat)] [] [].

Definition buttonCss : Locator :=
  mkLocator Css "button" "CSS selector" QCss None.

(** An empty [<span></span>] after the login button. *)
Definition emptySpan : Element :=
  mkElement 5 "SPAN" [] (ClassString "") "" ["BUTTON"] Samples.box
    Samples.shown (Some Samples.bodyEl).

End Cases.

(** Case analysis on a scrutinee of [H] that holds no other [match]. *)
Ltac split_innermost H :=
  match type of H with
  | context [match ?x with _ => _ end] =>
      lazymatch x with
      | context [match _ with _ => _ end] => fail
      | _ => destruct x eqn:?; simpl in H
      end
  end.

(* ================================================================== *)
(** * Properties *)

(** ** Strings *)

Lemma strip_prefix_app (p r : string) :
  JSString.strip_prefix p (p ++ r) = Some r.
Proof.
  induction p as [| c p IH]; simpl.
  - reflexivity.
  - rewrite Ascii.eqb_refl. exact IH.
Qed.

Lemma span_unquoted_app (x r : string) :
  unquoted x -> JSString.span_unquoted (x ++ q ++ r) = (x, q ++ r).
Proof.
  unfold unquoted.
  change (q ++ r) with (String (ascii_of_nat 34) r).
  induction x as [| c x IH]; simpl; intros H.
  - reflexivity.
  - destruct (JSString.is_quote c); [discriminate |].
    rewrite (IH H). reflexivity.
Qed.

Lemma append_assoc (a b c : string) : (a ++ b) ++ c = a ++ b ++ c.
Proof.
  induction a as [| x a IH]; simpl; [reflexivity | now rewrite IH].
Qed.

(** The pattern [pre [^Q]{min,} Q post] matches at the front of
    [pre x Q post tail] and captures [x], whenever [x] has no quote and
    at least [min] characters. *)
Lemma quoted_at_hit (pre post tail x : string) (min : nat) :
  unquoted x -> (min <= String.length x)%nat ->
  JSString.quoted_at pre (q ++ post) min (pre ++ x ++ q ++ post ++ tail)
  = Some (x, tail).
Proof.
  intros Hx Hmin. unfold JSString.quoted_at.
  rewrite strip_prefix_app.
  rewrite (span_unquoted_app x (post ++ tail) Hx).
  apply Nat.leb_le in Hmin. rewrite Hmin.
  rewrite <- (append_assoc q post tail).
  rewrite strip_prefix_app. reflexivity.
Qed.

Lemma quoted_search_here (pre post s body after : string) (min : nat) :
  JSString.quoted_at pre post min s = Some (body, after) ->
  JSString.quoted_search pre post min s = Some (EmptyString, body, after).
Proof.
  intros H. destruct s; simpl; rewrite H; reflexivity.
Qed.

Lemma quoted_search_skip (pre post s : string) (c : ascii) (min : nat) :
  JSString.quoted_at pre post min (String c s) = None ->
  JSString.quoted_search pre post min (String c s)
  = match JSString.quoted_search pre post min s with
    | Some (before, body, after) => Some (String c before, body, after)
    | None => None
    end.
Proof.
  intros H. simpl. rewrite H. reflexivity.
Qed.

Lemma quoted_search_nil (pre post : string) (min : nat) :
  JSString.quoted_at pre post min "" = None ->
  JSString.quoted_search pre post min "" = None.
Proof.
  intros H. simpl. rewrite H. reflexivity.
Qed.

Lemma quoted_search_front (pre post tail x : string) (min : nat) :
  unquoted x -> (min <= String.length x)%nat ->
  JSString.quoted_search pre (q ++ post) min (pre ++ x ++ q ++ post ++ tail)
  = Some (EmptyString, x, tail).
Proof.
  intros Hx Hmin. apply quoted_search_here.
  now apply quoted_at_hit.
Qed.

Lemma remove_quotes_unquoted (x : string) :
  unquoted x -> JSString.remove_quotes x = x.
Proof.
  unfold unquoted. induction x as [| c x IH]; simpl; intros H.
  - reflexivity.
  - destruct (JSString.is_quote c); [discriminate |].
    rewrite (IH H). reflexivity.
Qed.

(** What [getMatchCount] executes for the two text-query candidates:
    nothing is left of [text=QxQ], and [label] is left of
    [label:has-text(QxQ)]. *)
Lemma playwrightEstimate_text (x : string) :
  unquoted x -> playwrightEstimate ("text=" ++ q ++ x ++ q) = "".
Proof.
  intros Hx. unfold playwrightEstimate, JSString.replace_first.
  pose proof (quoted_search_front ("text=" ++ q) "" "" x 0 Hx (Nat.le_0_l _))
    as H.
  change (("text=" ++ q) ++ x ++ q ++ "" ++ "")
    with ("text=" ++ q ++ x ++ q) in H.
  change (q ++ "") with q in H.
  rewrite H. reflexivity.
Qed.

Lemma strip_prefix_sound (p s r : string) :
  JSString.strip_prefix p s = Some r -> s = p ++ r.
Proof.
  revert s. induction p as [| a p IH]; simpl; intros s H.
  - now inversion H.
  - destruct s as [| b s]; [discriminate |].
    destruct (Ascii.eqb a b) eqn:E; [| discriminate].
    apply Ascii.eqb_eq in E. subst b. now rewrite (IH s H).
Qed.

Lemma span_unquoted_sound (s body rest : string) :
  JSString.span_unquoted s = (body, rest) -> s = body ++ rest.
Proof.
  revert body. induction s as [| c s IH]; simpl; intros body H.
  - now inversion H.
  - destruct (JSString.is_quote c).
    + now inversion H.
    + destruct (JSString.span_unquoted s) as [b r].
      inversion H; subst. simpl. now rewrite (IH b eq_refl).
Qed.

Lemma count_quotes_app (a b : string) :
  count_quotes (a ++ b) = (count_quotes a + count_quotes b)%nat.
Proof.
  induction a as [| c a IH]; simpl; [reflexivity |].
  destruct (JSString.is_quote c); simpl; now rewrite IH.
Qed.

(** A pattern [pre Q [^Q]* Q post] needs two quotes to match. *)
Lemma quoted_at_needs_two_quotes (pre post s : string) (min : nat) :
  (count_quotes s < 2)%nat ->
  JSString.quoted_at (pre ++ q) (q ++ post) min s = None.
Proof.
  intros Hs. unfold JSString.quoted_at.
  destruct (JSString.strip_prefix (pre ++ q) s) as [r |] eqn:Ep;
    [| reflexivity].
  destruct (JSString.span_unquoted r) as [body rest] eqn:Es.
  destruct (min <=? String.length body)%nat; [| reflexivity].
  destruct (JSString.strip_prefix (q ++ post) rest) as [after |] eqn:Eq;
    [| reflexivity].
  exfalso.
  apply strip_prefix_sound in Ep. apply strip_prefix_sound in Eq.
  apply span_unquoted_sound in Es. subst s r rest.
  rewrite !count_quotes_app in Hs.
  change (count_quotes q) with 1%nat in Hs. lia.
Qed.

Lemma quoted_search_needs_two_quotes (pre post s : string) (min : nat) :
  (count_quotes s < 2)%nat ->
  JSString.quoted_search (pre ++ q) (q ++ post) min s = None.
Proof.
  induction s as [| c s IH]; intros Hs.
  - apply quoted_search_nil. now apply quoted_at_needs_two_quotes.
  - rewrite quoted_search_skip by now apply quoted_at_needs_two_quotes.
    rewrite IH; [reflexivity |].
    simpl in Hs. destruct (JSString.is_quote c); lia.
Qed.

Lemma quoted_search_skip_none (pre post s : string) (c : ascii) (min : nat) :
  JSString.quoted_at pre post min (String c s) = None ->
  JSString.quoted_search pre post min s = None ->
  JSString.quoted_search pre post min (String c s) = None.
Proof.
  intros H1 H2. rewrite quoted_search_skip by exact H1. now rewrite H2.
Qed.

(** The [text=] pattern finds nothing in a [label:has-text(...)]
    expression: the head has no [text=Q], and after it there is one
    quote only. *)
Lemma text_pattern_absent_in_label (x : string) :
  unquoted x ->
  JSString.quoted_search ("text=" ++ q) q 0
    ("label:has-text(" ++ q ++ x ++ q ++ ")") = None.
Proof.
  intros Hx.
  do 16 (apply quoted_search_skip_none; [reflexivity |]).
  change (JSString.quoted_search ("text=" ++ q) (q ++ "") 0 (x ++ q ++ ")")
          = None).
  apply quoted_search_needs_two_quotes.
  rewrite count_quotes_app. unfold unquoted in Hx. rewrite Hx.
  simpl. lia.
Qed.

Lemma playwrightEstimate_label (x : string) :
  unquoted x ->
  playwrightEstimate ("label:has-text(" ++ q ++ x ++ q ++ ")") = "label".
Proof.
  intros Hx. unfold playwrightEstimate.
  unfold JSString.replace_first at 2.
  rewrite (text_pattern_absent_in_label x Hx).
  unfold JSString.replace_first.
  pose proof (quoted_search_front ("label:has-text(" ++ q) ")" "" x 0 Hx
                (Nat.le_0_l _)) as H.
  change (("label:has-text(" ++ q) ++ x ++ q ++ ")" ++ "")
    with ("label:has-text(" ++ q ++ x ++ q ++ ")") in H.
  rewrite H. reflexivity.
Qed.

(* ================================================================== *)
(** ** Match count *)

Lemma getMatchCount_normal (d : Document) (l : Locator) :
  getMatchCount d l = Normal (matchCountOf d l).
Proof.
  unfold getMatchCount, matchCountOf.
  destruct (queryType l).
  - destruct (querySelectorAll d (value l)); reflexivity.
  - destruct (evaluate d (value l)); reflexivity.
  - destruct (querySelectorAll d (playwrightEstimate (value l))) as [[| k] |];
      reflexivity.
Qed.

(** C5.  [getMatchCount] never raises: it always returns a count.  For a
    structural-selector or path-query candidate the count is the
    query's, and 0 when the query raises.  For a text-query candidate
    the stripped remainder is executed as a structural selector and the
    count is its result, or 1 when that result is zero or the query
    raises; the remainder of [text=QxQ] is empty and that of
    [label:has-text(QxQ)] is [label]. *)
Theorem getMatchCount_never_throws (d : Document) (l : Locator) :
  (exists n : nat,
      getMatchCount d l = Normal n /\
      match queryType l with
      | QCss =>
          match querySelectorAll d (value l) with
          | Normal k => n = k
          | Throw _ => n = 0%nat
          end
      | QXPath =>
          match evaluate d (value l) with
          | Normal k => n = k
          | Throw _ => n = 0%nat
          end
      | QPlaywright =>
          match querySelectorAll d (playwrightEstimate (value l)) with
          | Normal O => n = 1%nat
          | Normal k => n = k
          | Throw _ => n = 1%nat
          end
      end) /\
  (forall x, unquoted x ->
             playwrightEstimate ("text=" ++ q ++ x ++ q) = "" /\
             playwrightEstimate ("label:has-text(" ++ q ++ x ++ q ++ ")")
             = "label").
Proof.
  split.
  - exists (matchCountOf d l). split; [apply getMatchCount_normal |].
    unfold matchCountOf. destruct (queryType l).
    + destruct (querySelectorAll d (value l)); reflexivity.
    + destruct (evaluate d (value l)); reflexivity.
    + destruct (querySelectorAll d (playwrightEstimate (value l)))
        as [[| k] |]; reflexivity.
  - intros x Hx. split.
    + now apply playwrightEstimate_text.
    + now apply playwrightEstimate_label.
Qed.

(* ================================================================== *)
(** ** Scores and tiers *)

Lemma calculateScore_normal (d : Document) (l : Locator) (e : Element) :
  calculateScore d l e = Normal (Z.max 0 (Z.min 100 (rawScore d l e))).
Proof.
  unfold calculateScore, rawScore. rewrite getMatchCount_normal. simpl.
  f_equal. f_equal. f_equal.
  destruct (hasDynamicParts (value l)), (isElementVisible e); lia.
Qed.

Lemma calculateScore_range (d : Document) (l : Locator) (e : Element) :
  exists s, calculateScore d l e = Normal s /\ (0 <= s <= 100)%Z.
Proof.
  eexists. split; [apply calculateScore_normal | lia].
Qed.

Lemma mapM_normal {A B : Type} (f : A -> Completion B) (g : A -> B)
  (l : list A) :
  (forall a, f a = Normal (g a)) -> mapM f l = Normal (map g l).
Proof.
  intros H. induction l as [| a l IH]; simpl.
  - reflexivity.
  - rewrite H, IH. reflexivity.
Qed.

Lemma rankLocators_normal (d : Document) (ls : list Locator) (e : Element) :
  rankLocators d ls e = Normal (sort (map (rankOf d e) ls)).
Proof.
  unfold rankLocators.
  rewrite (mapM_normal _ (rankOf d e)); [reflexivity |].
  intros l. unfold rankOf. rewrite calculateScore_normal. reflexivity.
Qed.

Lemma rankOf_locator (d : Document) (e : Element) (ls : list Locator) :
  map locator (map (rankOf d e) ls) = ls.
Proof.
  induction ls as [| l ls IH]; simpl; [reflexivity |].
  rewrite IH. unfold rankOf. rewrite calculateScore_normal. reflexivity.
Qed.

Lemma rankOf_score (d : Document) (e : Element) (l : Locator) :
  calculateScore d l e = Normal (score (rankOf d e l)) /\
  (0 <= score (rankOf d e l) <= 100)%Z /\
  stability (rankOf d e l) = getStabilityLevel (score (rankOf d e l)) /\
  locator (rankOf d e l) = l.
Proof.
  unfold rankOf. rewrite calculateScore_normal. simpl.
  repeat split; lia.
Qed.

(** *** The sort *)

Lemma insert_perm (x : RankedLocator) (l : list RankedLocator) :
  Permutation (insert x l) (x :: l).
Proof.
  induction l as [| y l IH]; simpl.
  - apply Permutation_refl.
  - destruct (compareFn x y <=? 0)%Z.
    + apply Permutation_refl.
    + eapply perm_trans; [apply perm_skip, IH | apply perm_swap].
Qed.

Lemma sort_perm (l : list RankedLocator) : Permutation (sort l) l.
Proof.
  induction l as [| x l IH]; simpl.
  - apply perm_nil.
  - eapply perm_trans; [apply insert_perm | now apply perm_skip].
Qed.

Lemma insert_sorted (x : RankedLocator) (l : list RankedLocator) :
  StronglySorted scoreGe l -> StronglySorted scoreGe (insert x l).
Proof.
  induction 1 as [| y l Hl IH Hy]; simpl.
  - constructor; [constructor | constructor].
  - destruct (compareFn x y <=? 0)%Z eqn:E.
    + apply Z.leb_le in E. unfold compareFn in E.
      constructor; [now constructor |].
      constructor; [unfold scoreGe; lia |].
      eapply Forall_impl; [| exact Hy].
      unfold scoreGe. intros z Hz. lia.
    + apply Z.leb_gt in E. unfold compareFn in E.
      constructor; [exact IH |].
      eapply Permutation_Forall;
        [apply Permutation_sym, insert_perm |].
      constructor; [unfold scoreGe; lia | exact Hy].
Qed.

Lemma sort_sorted (l : list RankedLocator) : StronglySorted scoreGe (sort l).
Proof.
  induction l as [| x l IH]; simpl.
  - constructor.
  - now apply insert_sorted.
Qed.

(** Insertion only passes over entries of strictly higher score, so the
    entries of any one score keep their order. *)
Lemma filter_insert (s : Z) (x : RankedLocator) (l : list RankedLocator) :
  filter (fun r => (score r =? s)%Z) (insert x l)
  = filter (fun r => (score r =? s)%Z) (x :: l).
Proof.
  induction l as [| y l IH]; simpl in *.
  - reflexivity.
  - destruct (compareFn x y <=? 0)%Z eqn:E; simpl.
    + reflexivity.
    + apply Z.leb_gt in E. unfold compareFn in E. rewrite IH.
      destruct (score x =? s)%Z eqn:Ex, (score y =? s)%Z eqn:Ey;
        try reflexivity.
      apply Z.eqb_eq in Ex, Ey. lia.
Qed.

Lemma sort_stable (s : Z) (l : list RankedLocator) :
  filter (fun r => (score r =? s)%Z) (sort l)
  = filter (fun r => (score r =? s)%Z) l.
Proof.
  induction l as [| x l IH]; simpl.
  - reflexivity.
  - rewrite filter_insert. simpl. now rewrite IH.
Qed.

Lemma filter_rankOf (d : Document) (e : Element) (s : Z)
  (ls : list Locator) :
  map locator (filter (fun r => (score r =? s)%Z) (map (rankOf d e) ls))
  = filter (has_score d e s) ls.
Proof.
  induction ls as [| l ls IH]; simpl; [reflexivity |].
  unfold has_score at 1.
  destruct (rankOf_score d e l) as (Hs & _ & _ & Hl).
  rewrite Hs.
  destruct (score (rankOf d e l) =? s)%Z; simpl; now rewrite ?Hl, IH.
Qed.

Lemma getStabilityLevel_thresholds (s : Z) :
  (getStabilityLevel s = Excellent <-> (80 <= s)%Z) /\
  (getStabilityLevel s = Good <-> (60 <= s < 80)%Z) /\
  (getStabilityLevel s = Fair <-> (40 <= s < 60)%Z) /\
  (getStabilityLevel s = Poor <-> (s < 40)%Z).
Proof.
  unfold getStabilityLevel.
  destruct (80 <=? s)%Z eqn:E80;
    [apply Z.leb_le in E80 | apply Z.leb_gt in E80];
    (destruct (60 <=? s)%Z eqn:E60;
       [apply Z.leb_le in E60 | apply Z.leb_gt in E60]);
    (destruct (40 <=? s)%Z eqn:E40;
       [apply Z.leb_le in E40 | apply Z.leb_gt in E40]);
    repeat split; intros; try discriminate; try lia; try reflexivity.
Qed.

(** C2.  For every candidate and element the score [calculateScore]
    returns is an integer from 0 to 100, and in the ranked list the
    stability tier of an entry is [getStabilityLevel] of its score:
    Excellent from 80, Good from 60, Fair from 40, Poor below. *)
Theorem score_in_range_and_tier_by_score (d : Document) (e : Element) :
  (forall l, exists s,
        calculateScore d l e = Normal s /\ (0 <= s <= 100)%Z) /\
  (forall ls, exists rs,
        rankLocators d ls e = Normal rs /\
        Forall (fun r => (0 <= score r <= 100)%Z /\
                         stability r = getStabilityLevel (score r)) rs) /\
  (forall s,
      (getStabilityLevel s = Excellent <-> (80 <= s)%Z) /\
      (getStabilityLevel s = Good <-> (60 <= s < 80)%Z) /\
      (getStabilityLevel s = Fair <-> (40 <= s < 60)%Z) /\
      (getStabilityLevel s = Poor <-> (s < 40)%Z)).
Proof.
  split; [| split].
  - intros l. apply calculateScore_range.
  - intros ls. exists (sort (map (rankOf d e) ls)).
    split; [apply rankLocators_normal |].
    eapply Permutation_Forall; [apply Permutation_sym, sort_perm |].
    apply Forall_forall. intros r Hr.
    apply in_map_iff in Hr. destruct Hr as (l & <- & _).
    destruct (rankOf_score d e l) as (_ & Hrange & Htier & _).
    split; assumption.
  - apply getStabilityLevel_thresholds.
Qed.

(** C3.  [rankLocators] returns the candidates it was given, each with
    its score, in descending order of score: an entry never comes after
    one of lower score.  The sort is stable: for every score, the
    candidates with that score come in the order they were given in,
    which for [buildLocatorInfo] is the order of generation. *)
Theorem rankLocators_stable_descending
  (d : Document) (ls : list Locator) (e : Element) :
  exists rs,
    rankLocators d ls e = Normal rs /\
    Permutation (map locator rs) ls /\
    Forall (fun r => calculateScore d (locator r) e = Normal (score r)) rs /\
    StronglySorted scoreGe rs /\
    (forall s,
        map locator (filter (fun r => (score r =? s)%Z) rs)
        = filter (has_score d e s) ls).
Proof.
  exists (sort (map (rankOf d e) ls)).
  split; [apply rankLocators_normal |].
  split; [| split; [| split]].
  - rewrite <- (rankOf_locator d e ls) at 2.
    apply Permutation_map, sort_perm.
  - eapply Permutation_Forall; [apply Permutation_sym, sort_perm |].
    apply Forall_forall. intros r Hr.
    apply in_map_iff in Hr. destruct Hr as (l & <- & _).
    destruct (rankOf_score d e l) as (Hs & _ & _ & Hl).
    now rewrite Hl.
  - apply sort_sorted.
  - intros s. rewrite sort_stable. apply filter_rankOf.
Qed.

(* ================================================================== *)
(** ** Candidate generation *)

Lemma in_push_if (c : bool) (x l : Locator) :
  In l (push_if c x) <-> c = true /\ l = x.
Proof.
  unfold push_if. destruct c; simpl.
  - split; [intros [H | []]; auto | intros [_ H]; auto].
  - split; [intros [] | intros [H _]; discriminate].
Qed.

(** The lookup of step 5 of [generateLocators], when it returns. *)
Lemma getAccessibleName_raises (d : Document) (e : Element)
  (ex : DOMException) :
  getAccessibleName d e = Throw ex ->
  truthy_string (id e) = true /\
  querySelector d (labelForSelector (id e)) = Throw ex.
Proof.
  unfold getAccessibleName, bind. intros H.
  repeat split_innermost H; try discriminate H.
  all: inversion H; subst; split; reflexivity.
Qed.

(** [generateLocators] returns unless the label lookup raises. *)
Lemma generateLocators_returns (d : Document) (e : Element) :
  (truthy_string (id e) = true ->
   exists r, querySelector d (labelForSelector (id e)) = Normal r) ->
  exists ls, generateLocators d e = Normal ls.
Proof.
  intros Hq. unfold generateLocators.
  destruct (getAccessibleName d e) as [name | ex] eqn:En.
  - simpl. destruct (truthy_string (id e)) eqn:Ei.
    + destruct (Hq eq_refl) as [r Hr]. rewrite Hr. simpl.
      eexists. reflexivity.
    + simpl. eexists. reflexivity.
  - apply getAccessibleName_raises in En. destruct En as [Ei Ex].
    destruct (Hq Ei) as [r Hr]. congruence.
Qed.

(** When the label lookup raises, so does [generateLocators]. *)
Lemma generateLocators_raises (d : Document) (e : Element)
  (ex : DOMException) :
  truthy_string (id e) = true ->
  querySelector d (labelForSelector (id e)) = Throw ex ->
  generateLocators d e = Throw ex /\ buildLocatorInfo d e = Throw ex.
Proof.
  intros Ei Hq.
  assert (H : generateLocators d e = Throw ex).
  { unfold generateLocators.
    destruct (getAccessibleName d e) as [name | ex'] eqn:En; simpl.
    - rewrite Ei, Hq. reflexivity.
    - apply getAccessibleName_raises in En. destruct En as [_ Ex].
      congruence. }
  split; [exact H |].
  unfold buildLocatorInfo. rewrite H. reflexivity.
Qed.

(** Whenever [generateLocators] returns, the path-query candidate is
    the last entry of the list. *)
Lemma generateLocators_last_is_xpath (d : Document) (e : Element)
  (ls : list Locator) :
  generateLocators d e = Normal ls ->
  exists front, ls = (front ++ [xpathLocator d e])%list.
Proof.
  unfold generateLocators.
  destruct (getAccessibleName d e) as [name | ex]; simpl; [| discriminate].
  destruct (if truthy_string (id e) then _ else _) as [l5 | ex]; simpl;
    [| discriminate].
  intros H. inversion H; subst ls; clear H.
  rewrite !app_assoc. eexists. reflexivity.
Qed.

(** C1.  The unguarded label lookup defeats the invariant: on an element
    whose id holds a double quote, [<div id=aQb>], the selector built
    from the id is rejected, the exception leaves [generateLocators],
    and [buildLocatorInfo] returns no locator list at all. *)
Theorem quoted_id_leaves_no_locator_list :
  quoteBreaks (id Samples.quotedIdDiv) = true /\
  querySelector Samples.quotedIdPage
    (labelForSelector (id Samples.quotedIdDiv)) = Throw SyntaxError /\
  generateLocators Samples.quotedIdPage Samples.quotedIdDiv
  = Throw SyntaxError /\
  buildLocatorInfo Samples.quotedIdPage Samples.quotedIdDiv
  = Throw SyntaxError.
Proof.
  repeat split; vm_compute; reflexivity.
Qed.

Lemma filter_push_if (f : Locator -> bool) (c : bool) (x : Locator) :
  filter f (push_if c x) = push_if (c && f x) x.
Proof.
  destruct c; simpl; [destruct (f x) |]; reflexivity.
Qed.

Lemma substring_short (s : string) (n : nat) :
  (String.length s <= n)%nat -> String.substring 0 n s = s.
Proof.
  revert n. induction s as [| c s IH]; intros n H.
  - destruct n; reflexivity.
  - destruct n as [| n]; simpl in *; [lia |].
    rewrite IH by lia. reflexivity.
Qed.

Lemma substring_length (s : string) (n : nat) :
  String.length (String.substring 0 n s) = Nat.min n (String.length s).
Proof.
  revert n. induction s as [| c s IH]; intros n.
  - destruct n; reflexivity.
  - destruct n as [| n]; simpl; [reflexivity |].
    now rewrite IH.
Qed.

Lemma collapse_nonempty (s : string) :
  truthy_string s = true -> truthy_string (JSString.collapse_ws s) = true.
Proof.
  destruct s as [| c s]; simpl; [discriminate |].
  intros _. unfold JSString.collapse_ws. simpl.
  destruct (JSString.is_ws c); reflexivity.
Qed.

Lemma truthy_string_length (s : string) :
  truthy_string s = negb (Nat.eqb (String.length s) 0).
Proof.
  destruct s; reflexivity.
Qed.

(** [getStableText] followed by the guard of step 6. *)
Lemma text_guard (e : Element) :
  let text := getStableText e in
  truthy text && (String.length (unwrap text) <? 100)%nat
  = negb (String.eqb (collapsedText e) "")
    && (String.length (collapsedText e) <? 100)%nat /\
  (truthy text && (String.length (unwrap text) <? 100)%nat = true ->
   unwrap text = collapsedText e).
Proof.
  unfold getStableText, collapsedText. simpl.
  destruct (truthy_string (JSString.trim (textContent e))) eqn:Et; simpl.
  - pose proof (collapse_nonempty _ Et) as Hc.
    set (c := JSString.collapse_ws (JSString.trim (textContent e))) in *.
    change (negb (String.eqb c "")) with (truthy_string c). rewrite Hc.
    rewrite (truthy_string_length (String.substring 0 100 c)).
    rewrite substring_length.
    rewrite truthy_string_length in Hc.
    destruct (String.length c <? 100)%nat eqn:El.
    + apply Nat.ltb_lt in El.
      rewrite Nat.min_r by lia. rewrite Hc. simpl.
      split; [apply Nat.ltb_lt; exact El |].
      intros _. apply substring_short. lia.
    + apply Nat.ltb_ge in El.
      rewrite Nat.min_l by lia. simpl. split; [reflexivity | discriminate].
  - unfold truthy_string in Et. apply negb_false_iff in Et.
    apply String.eqb_eq in Et. rewrite Et. simpl.
    split; [reflexivity | discriminate].
Qed.

(** C8, as stated, fails: a paragraph whose collapsed text has exactly
    one hundred characters meets the stated condition and gets no text
    candidate. *)
Lemma hundred_characters_no_text_candidate :
  collapsedText Samples.hundredP <> "" /\
  (String.length (collapsedText Samples.hundredP) <= 100)%nat /\
  exists ls,
    generateLocators Samples.textPage Samples.hundredP = Normal ls /\
    filter (of_type Text) ls = [].
Proof.
  split; [| split].
  - vm_compute. discriminate.
  - vm_compute. repeat constructor.
  - eexists. split; vm_compute; reflexivity.
Qed.

(** C8, amended.  Whenever [generateLocators] returns, its list holds a
    text candidate exactly when the trimmed, white-space-collapsed text
    of the element is non-empty and shorter than 100 characters; there
    is then one such candidate and its expression is [text=QxQ] for that
    collapsed text [x]. *)
Theorem text_candidate_iff_short_text
  (d : Document) (e : Element) (ls : list Locator) :
  generateLocators d e = Normal ls ->
  filter (of_type Text) ls
  = if negb (String.eqb (collapsedText e) "")
       && (String.length (collapsedText e) <? 100)%nat
    then [textLocator (collapsedText e)]
    else [].
Proof.
  unfold generateLocators.
  destruct (getAccessibleName d e) as [name | ex]; simpl; [| discriminate].
  destruct (if truthy_string (id e) then _ else _) as [l5 | ex] eqn:E5;
    simpl; [| discriminate].
  intros H. inversion H; subst ls; clear H.
  assert (H5 : filter (of_type Text) l5 = []).
  { destruct (truthy_string (id e)).
    - destruct (querySelector d (labelForSelector (id e))) as [[lab |] |];
        simpl in E5; inversion E5; reflexivity.
    - inversion E5. reflexivity. }
  rewrite !filter_app, !filter_push_if, H5.
  destruct (text_guard e) as [Hg Hv]. simpl in Hg, Hv.
  cbn [of_type type LocatorType_eqb type_name String.eqb Ascii.eqb
       Bool.eqb andb].
  rewrite !andb_false_r. rewrite andb_true_r.
  cbn [push_if app filter].
  rewrite <- Hg.
  destruct (truthy (getStableText e)
            && (String.length (unwrap (getStableText e)) <? 100)%nat) eqn:Eg.
  - rewrite (Hv eq_refl). reflexivity.
  - reflexivity.
Qed.

Lemma text_candidate_witness :
  exists ls,
    generateLocators Samples.textPage Samples.ninetyNineP = Normal ls /\
    filter (of_type Text) ls = [textLocator (Samples.xs 99)].
Proof.
  eexists. split.
  - vm_compute. reflexivity.
  - apply (text_candidate_iff_short_text Samples.textPage Samples.ninetyNineP).
    vm_compute. reflexivity.
Defined.

(** Every candidate [generateLocators] returns carries the expression
    of its type, around some literal. *)
Lemma generated_syntax (d : Document) (e : Element)
  (ls : list Locator) (l : Locator) :
  generateLocators d e = Normal ls -> In l ls ->
  exists x, value l = generatedExpression (type l) x.
Proof.
  unfold generateLocators.
  destruct (getAccessibleName d e) as [name | ex]; simpl; [| discriminate].
  destruct (if truthy_string (id e) then _ else _) as [l5 | ex] eqn:E5;
    simpl; [| discriminate].
  intros H Hin. inversion H; subst ls; clear H.
  assert (H5 : forall y, In y l5 ->
                         exists x, value y = generatedExpression (type y) x).
  { intros y Hy. destruct (truthy_string (id e)).
    - destruct (querySelector d (labelForSelector (id e))) as [[lab |] |];
        simpl in E5; inversion E5; subst l5; simpl in Hy;
        [destruct Hy as [<- | []]; eexists; reflexivity | destruct Hy].
    - inversion E5; subst l5. destruct Hy. }
  repeat rewrite in_app_iff in Hin. rewrite !in_push_if in Hin.
  repeat match goal with
         | Hd : _ \/ _ |- _ => destruct Hd as [Hd | Hd]
         end;
    try (destruct Hin as [_ ->]; eexists; reflexivity).
  - now apply H5.
  - simpl in Hin. destruct Hin as [<- | []]. eexists. reflexivity.
Qed.

(** The role candidate of step 2, for a given role and name. *)
Lemma role_candidate_shape (d : Document) (e : Element)
  (ls : list Locator) (l : Locator) :
  generateLocators d e = Normal ls -> In l ls -> type l = Role ->
  queryType l = QCss /\
  exists role, value l = "role=" ++ q ++ role ++ q.
Proof.
  unfold generateLocators.
  destruct (getAccessibleName d e) as [name | ex]; simpl; [| discriminate].
  destruct (if truthy_string (id e) then _ else _) as [l5 | ex] eqn:E5;
    simpl; [| discriminate].
  intros H Hin Ht. inversion H; subst ls; clear H.
  assert (H5 : forall x, In x l5 -> type x = Label).
  { intros x Hx. destruct (truthy_string (id e)).
    - destruct (querySelector d (labelForSelector (id e))) as [[lab |] |];
        simpl in E5; inversion E5; subst l5; simpl in Hx;
        [destruct Hx as [<- | []]; reflexivity | destruct Hx].
    - inversion E5; subst l5. destruct Hx. }
  repeat rewrite in_app_iff in Hin. rewrite !in_push_if in Hin.
  repeat match goal with
         | Hd : _ \/ _ |- _ => destruct Hd as [Hd | Hd]
         end;
    try (destruct Hin as [_ ->]; simpl in Ht; try discriminate Ht).
  - split; [reflexivity | eexists; reflexivity].
  - apply H5 in Hin. congruence.
  - simpl in Hin. destruct Hin as [<- | []]. discriminate Ht.
Qed.

(** C10.  In a document whose selector engine rejects every selector
    that opens with an identifier followed by [=], every role candidate
    [generateLocators] produces is a structural-selector candidate with
    expression [role=QxQ]; its query raises, so its match count is 0 and
    its score is the clamped sum with the penalty of 20 in the place of
    the uniqueness term, never the bonus of 10. *)
Theorem role_candidate_never_matches
  (d : Document) (e : Element) (ls : list Locator) (l : Locator) :
  (forall s, identThenEquals s = true ->
             querySelectorAll d s = Throw SyntaxError) ->
  generateLocators d e = Normal ls -> In l ls -> type l = Role ->
  queryType l = QCss /\
  (exists role, value l = "role=" ++ q ++ role ++ q) /\
  querySelectorAll d (value l) = Throw SyntaxError /\
  getMatchCount d l = Normal 0%nat /\
  calculateScore d l e
  = Normal (Z.max 0 (Z.min 100
              (50 + 90 - 20
               + (if hasDynamicParts (value l) then -30 else 0)
               + (if isElementVisible e then 5 else 0)
               + lengthTerm (value l))))%Z.
Proof.
  intros Hlaw Hgen Hin Ht.
  destruct (role_candidate_shape d e ls l Hgen Hin Ht) as (Hq & role & Hv).
  assert (Hthrow : querySelectorAll d (value l) = Throw SyntaxError).
  { apply Hlaw. rewrite Hv. reflexivity. }
  assert (Hcount : matchCountOf d l = 0%nat).
  { unfold matchCountOf. rewrite Hq, Hthrow. reflexivity. }
  repeat split.
  - exact Hq.
  - exists role. exact Hv.
  - exact Hthrow.
  - rewrite getMatchCount_normal, Hcount. reflexivity.
  - rewrite calculateScore_normal. unfold rawScore.
    rewrite Hcount, Ht. reflexivity.
Qed.

Lemma page_rejects_ident_equals
  (selectors paths : list (string * nat))
  (labels ids : list (string * Element)) (s : string) :
  identThenEquals s = true ->
  querySelectorAll (Samples.page selectors paths labels ids) s
  = Throw SyntaxError.
Proof.
  intros H. simpl. unfold Samples.rejected. rewrite H, orb_true_r.
  reflexivity.
Defined.

Lemma role_candidate_witness :
  getMatchCount Samples.loginPage Samples.loginRole = Normal 0%nat /\
  calculateScore Samples.loginPage Samples.loginRole Samples.loginButton
  = Normal 100%Z.
Proof.
  destruct (role_candidate_never_matches
              Samples.loginPage Samples.loginButton
              [Samples.loginTestId;
               Samples.loginRole;
               mkLocator AriaLabel ("[aria-label=" ++ q ++ "Sign in" ++ q ++ "]")
                 "Accessibility label" QCss None;
               mkLocator Text ("text=" ++ q ++ "Login" ++ q)
                 "Visible text content" QPlaywright None;
               mkLocator Css "button" "CSS selector" QCss None;
               mkLocator XPath "/html/body/button" "XPath selector"
                 QXPath None]
              Samples.loginRole)
    as (_ & _ & _ & Hcount & Hscore).
  - apply page_rejects_ident_equals.
  - vm_compute. reflexivity.
  - simpl. right. left. reflexivity.
  - reflexivity.
  - split; [exact Hcount | exact Hscore].
Defined.

(* ================================================================== *)
(** ** Accessible name *)

(** C4, as stated, fails: an [aria-label] attribute that is present but
    empty is not the accessible name; the button's text is. *)
Lemma empty_aria_label_is_not_the_name :
  getAttribute Samples.emptyAriaButton "aria-label" = Some "" /\
  getAccessibleName Samples.buttonPage Samples.emptyAriaButton
  = Normal (Some "Click me").
Proof.
  split; vm_compute; reflexivity.
Qed.

(** C4, amended.  [getAccessibleName] is the first match of the fixed
    order: non-empty [aria-label]; the trimmed text of the element a
    non-empty [aria-labelledby] refers to; for a button its non-empty
    trimmed text; for an input the trimmed text of its [label[for]],
    then its non-empty placeholder; for an anchor its non-empty trimmed
    text; for an image its non-empty [alt]; else null.  In particular an
    element with a non-empty [aria-label] has that value as its name,
    whatever its text. *)
Theorem getAccessibleName_follows_the_order (d : Document) (e : Element) :
  getAccessibleName d e = resolveAccessibleName d e /\
  (forall v, getAttribute e "aria-label" = Some v -> v <> "" ->
             getAccessibleName d e = Normal (Some v)).
Proof.
  split.
  - unfold getAccessibleName, resolveAccessibleName, nameSteps, firstMatch,
      present, trimmedText, bind, option_map.
    generalize (String.eqb (tagName e) "BUTTON")
               (String.eqb (tagName e) "INPUT")
               (String.eqb (tagName e) "A")
               (String.eqb (tagName e) "IMG").
    intros isButton isInput isA isImg.
    repeat match goal with
           | |- context [match ?x with _ => _ end] =>
               lazymatch x with
               | context [match _ with _ => _ end] => fail
               | _ => destruct x eqn:?; simpl in *
               end
           end;
      try reflexivity; try congruence.
  - intros v Hv Hne. unfold getAccessibleName. rewrite Hv.
    assert (Ht : truthy (Some v) = true).
    { simpl. unfold truthy_string. apply negb_true_iff.
      apply String.eqb_neq. exact Hne. }
    rewrite Ht. reflexivity.
Qed.

Lemma save_button_witness :
  getAccessibleName Samples.buttonPage Samples.saveButton
  = Normal (Some "Save").
Proof.
  apply (proj2 (getAccessibleName_follows_the_order
                  Samples.buttonPage Samples.saveButton)).
  - reflexivity.
  - discriminate.
Defined.

(* ================================================================== *)
(** ** Framework conversion *)

Lemma nonempty_length (x : string) : x <> "" -> (1 <= String.length x)%nat.
Proof.
  destruct x; simpl; [congruence | lia].
Qed.

(** Leftmost search on a generated expression: skip the characters
    before the pattern, then match at the pattern. *)
Ltac find_capture pre post tail x Hx Hlen :=
  cbn [append];
  repeat (rewrite quoted_search_skip by reflexivity);
  rewrite (quoted_search_here _ _ _ x tail)
    by exact (quoted_at_hit pre post tail x 1 Hx Hlen).

Lemma attrCapture_generated (x : string) :
  unquoted x -> x <> "" ->
  attrCapture "data-testid" (generatedExpression TestId x) = Some x /\
  attrCapture "role" (generatedExpression Role x) = Some x /\
  attrCapture "role" (generatedExpression RoleAttr x) = Some x /\
  attrCapture "aria-label" (generatedExpression AriaLabel x) = Some x /\
  attrCapture "text" (generatedExpression Text x) = Some x /\
  attrCapture "placeholder" (generatedExpression Placeholder x) = Some x /\
  attrCapture "alt" (generatedExpression Alt x) = Some x /\
  attrCapture "name" (generatedExpression Name x) = Some x /\
  labelCapture (generatedExpression Label x) = Some x.
Proof.
  intros Hx Hne. pose proof (nonempty_length x Hne) as Hlen.
  unfold attrCapture, labelCapture, JSString.capture, generatedExpression.
  repeat split.
  - find_capture ("data-testid=" ++ q) "" "]" x Hx Hlen. reflexivity.
  - find_capture ("role=" ++ q) "" "" x Hx Hlen. reflexivity.
  - find_capture ("role=" ++ q) "" "]" x Hx Hlen. reflexivity.
  - find_capture ("aria-label=" ++ q) "" "]" x Hx Hlen. reflexivity.
  - find_capture ("text=" ++ q) "" "" x Hx Hlen. reflexivity.
  - find_capture ("placeholder=" ++ q) "" "]" x Hx Hlen. reflexivity.
  - find_capture ("alt=" ++ q) "" "]" x Hx Hlen. reflexivity.
  - find_capture ("name=" ++ q) "" "]" x Hx Hlen. reflexivity.
  - find_capture ("label:has-text(" ++ q) ")" "" x Hx Hlen. reflexivity.
Qed.

(** Both sides of an equation between concatenations, flattened. *)
Ltac flatten_append :=
  unfold q, JSString.quote;
  repeat (progress (cbn [append]) || rewrite append_assoc).

Lemma remove_first_hash_generated (x : string) :
  JSString.remove_first_hash (generatedExpression Id x) = x.
Proof.
  reflexivity.
Qed.

(** On the expression of its type, [convertToPlaywright] gives the call
    of the type with the literal, whatever the reason, the query type
    and, but for [role], the accessible name. *)
Lemma convertToPlaywright_on_expression
  (t : LocatorType) (x r : string) (k : QueryType) (n : option string) :
  extractable t x ->
  convertToPlaywright (mkLocator t (generatedExpression t x) r k n)
  = playwrightOutput t x n.
Proof.
  intros He.
  destruct t; cbn [extractable] in He;
    lazymatch type of He with
    | True =>
        unfold convertToPlaywright, playwrightCase, playwrightDefault,
          playwrightOutput;
        cbn [type value accessibleName];
        rewrite ?remove_first_hash_generated;
        unfold playwrightCall, generatedExpression; flatten_append;
        reflexivity
    | _ =>
        destruct He as [Hx Hne];
        destruct (attrCapture_generated x Hx Hne)
          as (Htid & Hrole & Hrattr & Haria & Htext & Hph & Halt & Hname
              & Hlab);
        unfold convertToPlaywright, playwrightCase, playwrightDefault,
          with_capture, playwrightOutput;
        cbn [type value accessibleName];
        rewrite ?Htid, ?Hrole, ?Hrattr, ?Haria, ?Htext, ?Hph, ?Halt,
          ?Hname, ?Hlab;
        try destruct (truthy n);
        unfold playwrightCall, generatedExpression; flatten_append;
        reflexivity
    end.
Qed.

Lemma convertToSelenium_on_expression
  (t : LocatorType) (x r : string) (k : QueryType) (n : option string) :
  extractable t x ->
  convertToSelenium (mkLocator t (generatedExpression t x) r k n)
  = seleniumCall t x.
Proof.
  intros He.
  destruct t; cbn [extractable] in He;
    lazymatch type of He with
    | True =>
        unfold convertToSelenium, seleniumCase, seleniumDefault;
        cbn [type value];
        rewrite ?remove_first_hash_generated;
        unfold seleniumCall, generatedExpression; flatten_append;
        reflexivity
    | _ =>
        destruct He as [Hx Hne];
        destruct (attrCapture_generated x Hx Hne)
          as (Htid & Hrole & Hrattr & Haria & Htext & Hph & Halt & Hname
              & Hlab);
        unfold convertToSelenium, seleniumCase, seleniumDefault,
          with_capture;
        cbn [type value];
        rewrite ?Htid, ?Hrole, ?Hrattr, ?Haria, ?Htext, ?Hph, ?Halt,
          ?Hname, ?Hlab;
        unfold seleniumCall, generatedExpression; flatten_append;
        reflexivity
    end.
Qed.

(** C9, as stated, fails: neither [switch] has a case for [title], and
    the Selenium one has none for [role-attr]; such candidates get the
    generic call of the [default] branch.  And a literal that holds a
    double quote is cut at that quote by the extracting pattern. *)
Lemma title_falls_to_the_default_branch :
  playwrightCase Title = None /\
  seleniumCase Title = None /\
  seleniumCase RoleAttr = None /\
  convertToFramework Samples.titleLocator "playwright"
  = playwrightDefault Samples.titleLocator /\
  convertToFramework Samples.titleLocator "selenium"
  = seleniumDefault Samples.titleLocator /\
  convertToFramework Samples.roleAttrLocator "selenium"
  = seleniumDefault Samples.roleAttrLocator /\
  convertToFramework Samples.quotedPlaceholderLocator "playwright"
  = "page.getByPlaceholder('say ')".
Proof.
  repeat split; reflexivity.
Qed.

(* ================================================================== *)
(** ** The login button *)

(** A role or test-id candidate that matches exactly one element scores
    100 whatever else holds: the clamp hides the five points between
    their type weights. *)
Lemma unique_match_saturates (d : Document) (l : Locator) (e : Element) :
  type l = Role \/ type l = TestId ->
  matchCountOf d l = 1%nat ->
  calculateScore d l e = Normal 100%Z.
Proof.
  intros Ht Hc. rewrite calculateScore_normal. unfold rawScore, lengthTerm.
  rewrite Hc. f_equal.
  destruct Ht as [-> | ->]; cbn [typeBonuses uniquenessTerm];
    destruct (hasDynamicParts (value l)), (isElementVisible e),
      (String.length (value l) <? 30)%nat,
      (150 <? String.length (value l))%nat; lia.
Qed.

Lemma insert_at_head (x : RankedLocator) (l : list RankedLocator) :
  score x = 100%Z -> Forall (fun y => (score y <= 100)%Z) l ->
  insert x l = x :: l.
Proof.
  intros Hx Hl. destruct l as [| y l]; simpl; [reflexivity |].
  inversion Hl; subst.
  replace (compareFn x y <=? 0)%Z with true; [reflexivity |].
  symmetry. apply Z.leb_le. unfold compareFn. lia.
Qed.

(** The test-id candidate is the first one generated. *)
Lemma test_id_is_generated_first (d : Document) (e : Element)
  (ls : list Locator) (l : Locator) :
  generateLocators d e = Normal ls -> In l ls -> type l = TestId ->
  exists rest, ls = l :: rest.
Proof.
  unfold generateLocators.
  destruct (getAccessibleName d e) as [name | ex]; simpl; [| discriminate].
  destruct (if truthy_string (id e) then _ else _) as [l5 | ex] eqn:E5;
    simpl; [| discriminate].
  intros H Hin Ht. inversion H; subst ls; clear H.
  assert (H5 : forall x, In x l5 -> type x = Label).
  { intros x Hx. destruct (truthy_string (id e)).
    - destruct (querySelector d (labelForSelector (id e))) as [[lab |] |];
        simpl in E5; inversion E5; subst l5; simpl in Hx;
        [destruct Hx as [<- | []]; reflexivity | destruct Hx].
    - inversion E5; subst l5. destruct Hx. }
  repeat rewrite in_app_iff in Hin. rewrite !in_push_if in Hin.
  repeat match goal with
         | Hd : _ \/ _ |- _ => destruct Hd as [Hd | Hd]
         end;
    try (destruct Hin as [Hc ->]; simpl in Ht; try discriminate Ht).
  - rewrite Hc. simpl. eexists. reflexivity.
  - apply H5 in Hin. congruence.
  - simpl in Hin. destruct Hin as [<- | []]. discriminate Ht.
Qed.

(** Whenever the test-id candidate matches exactly one element it heads
    the ranking with score 100, and every other candidate, the role
    candidate among them, comes after it. *)
Lemma unique_test_id_heads_the_ranking (d : Document) (e : Element)
  (ls : list Locator) (l : Locator) :
  generateLocators d e = Normal ls -> In l ls -> type l = TestId ->
  matchCountOf d l = 1%nat ->
  exists others rest,
    ls = l :: others /\
    rankLocators d ls e = Normal (mkRanked l 100 Excellent :: rest) /\
    Permutation (map locator rest) others.
Proof.
  intros Hgen Hin Ht Hc.
  destruct (test_id_is_generated_first d e ls l Hgen Hin Ht) as [others ->].
  exists others, (sort (map (rankOf d e) others)).
  split; [reflexivity |]. split.
  - rewrite rankLocators_normal. simpl.
    assert (Hr : rankOf d e l = mkRanked l 100 Excellent).
    { unfold rankOf.
      rewrite (unique_match_saturates d l e (or_intror Ht) Hc).
      reflexivity. }
    rewrite Hr. f_equal. apply insert_at_head; [reflexivity |].
    eapply Permutation_Forall; [apply Permutation_sym, sort_perm |].
    apply Forall_forall. intros r Hin'.
    apply in_map_iff in Hin'. destruct Hin' as (x & <- & _).
    destruct (rankOf_score d e x) as (_ & Hrange & _). lia.
  - rewrite <- (rankOf_locator d e others) at 2.
    apply Permutation_map, sort_perm.
Qed.

(** C6.  On the login button both candidates are generated, but the
    role candidate does not outrank the test-id candidate: both score
    100 and the stable sort keeps the test-id candidate, generated
    first, at the head of the ranking.  The same ranking results under
    an engine that would give the role candidate match count 1 too. *)
Theorem login_button_ranks_test_id_first :
  (exists info,
      buildLocatorInfo Samples.loginPage Samples.loginButton = Normal info /\
      map (fun r => (locator r, score r)) (locators info)
      = [ (Samples.loginTestId, 100%Z);
          (Samples.loginRole, 100%Z);
          (mkLocator AriaLabel ("[aria-label=" ++ q ++ "Sign in" ++ q ++ "]")
                     "Accessibility label" QCss None, 100%Z);
          (mkLocator Text ("text=" ++ q ++ "Login" ++ q)
                     "Visible text content" QPlaywright None, 90%Z);
          (mkLocator Css "button" "CSS selector" QCss None, 85%Z);
          (mkLocator XPath "/html/body/button" "XPath selector" QXPath None,
           80%Z) ] /\
      getMatchCount Samples.loginPage Samples.loginTestId = Normal 1%nat /\
      getMatchCount Samples.loginPage Samples.loginRole = Normal 0%nat) /\
  (exists info,
      buildLocatorInfo Samples.lenientLoginPage Samples.loginButton
      = Normal info /\
      map (fun r => (type (locator r), score r)) (locators info)
      = [ (TestId, 100%Z); (Role, 100%Z); (AriaLabel, 100%Z);
          (Text, 90%Z); (Css, 85%Z); (XPath, 80%Z) ] /\
      getMatchCount Samples.lenientLoginPage Samples.loginTestId
      = Normal 1%nat /\
      getMatchCount Samples.lenientLoginPage Samples.loginRole
      = Normal 1%nat).
Proof.
  split; eexists; (split; [vm_compute; reflexivity |]);
    (split; [| split]); vm_compute; reflexivity.
Qed.

(* ================================================================== *)
(** ** The structural selector *)

(** [generateCssSelector] returns [#id] for every non-empty id, without
    looking for a colon. *)
Lemma generateCssSelector_id (d : Document) (e : Element) :
  truthy_string (id e) = true -> generateCssSelector d e = "#" ++ id e.
Proof.
  intros H. unfold generateCssSelector. rewrite H. reflexivity.
Qed.

(** C7.  On [<div id='a:b'>] inside [<section class=main>] the id holds
    a colon, so no id candidate is generated, yet [generateCssSelector]
    returns [#a:b] at once; the ancestor walk, which would give
    [section.main > div], is not performed. *)
Theorem colon_id_still_short_circuits :
  JSString.includes_char ":"%char (id Samples.colonIdDiv) = true /\
  generateCssSelector Samples.colonPage Samples.colonIdDiv = "#a:b" /\
  JSString.join " > " (cssWalk Samples.colonPage 5 Samples.colonIdDiv [])
  = "section.main > div" /\
  exists ls,
    generateLocators Samples.colonPage Samples.colonIdDiv = Normal ls /\
    map (fun l => (type l, value l)) ls
    = [ (Css, "#a:b"); (XPath, "//*[@id=" ++ q ++ "a:b" ++ q ++ "]") ].
Proof.
  repeat split; try (vm_compute; reflexivity).
  eexists. split; vm_compute; reflexivity.
Qed.


(* ================================================================== *)
(** * Further properties *)

(** ** The enumeration of candidates *)

Lemma option_list_keep_if (c : bool) (l : Locator) :
  option_list (keep_if c l) = push_if c l.
Proof.
  destruct c; reflexivity.
Qed.

(** [generateLocators] is the enumeration of the thirteen types. *)
Lemma generateLocators_enumerates (d : Document) (e : Element) :
  generateLocators d e = enumerateCandidates d e.
Proof.
  unfold generateLocators, enumerateCandidates, labelLookup.
  destruct (getAccessibleName d e) as [name | ex]; simpl; [| reflexivity].
  destruct (truthy_string (id e)) eqn:Ei; simpl.
  - destruct (querySelector d (labelForSelector (id e))) as [[lab |] | ex];
      simpl; [| | reflexivity];
      rewrite !option_list_keep_if; reflexivity.
  - rewrite !option_list_keep_if. reflexivity.
Qed.

Lemma candidateOf_type (d : Document) (e : Element) (name : option string)
  (label : option Element) (t : LocatorType) (l : Locator) :
  candidateOf d e name label t = Some l -> type l = t.
Proof.
  destruct t; simpl; unfold keep_if;
    repeat match goal with
           | |- context [if ?c then _ else _] => destruct c
           | |- context [match ?x with _ => _ end] => destruct x
           end;
    intros H; inversion H; reflexivity.
Qed.

Lemma all_types_complete (t : LocatorType) : In t all_types.
Proof.
  destruct t; simpl; tauto.
Qed.

Lemma all_types_NoDup : NoDup all_types.
Proof.
  unfold all_types.
  repeat (constructor; [simpl; intuition discriminate |]).
  constructor.
Qed.

Lemma generateLocators_inv (d : Document) (e : Element)
  (ls : list Locator) :
  generateLocators d e = Normal ls ->
  exists name label,
    getAccessibleName d e = Normal name /\
    labelLookup d e = Normal label /\
    ls = flat_map (fun t => option_list (candidateOf d e name label t))
                  all_types.
Proof.
  rewrite generateLocators_enumerates. unfold enumerateCandidates.
  destruct (getAccessibleName d e) as [name | ex]; simpl; [| discriminate].
  destruct (labelLookup d e) as [label | ex]; simpl; [| discriminate].
  intros H. inversion H. exists name, label. repeat split.
Qed.

Lemma in_enumeration (d : Document) (e : Element) (name : option string)
  (label : option Element) (l : Locator) :
  In l (flat_map (fun t => option_list (candidateOf d e name label t))
                 all_types)
  <-> candidateOf d e name label (type l) = Some l.
Proof.
  rewrite in_flat_map. split.
  - intros (t & _ & Hin).
    destruct (candidateOf d e name label t) as [x |] eqn:Ec; simpl in Hin;
      [| contradiction].
    destruct Hin as [<- | []].
    now rewrite (candidateOf_type _ _ _ _ _ _ Ec).
  - intros H. exists (type l). split; [apply all_types_complete |].
    rewrite H. now left.
Qed.

Lemma types_of_enumeration (d : Document) (e : Element)
  (name : option string) (label : option Element) (ts : list LocatorType) :
  map type (flat_map (fun t => option_list (candidateOf d e name label t)) ts)
  = filter (fun t => match candidateOf d e name label t with
                     | Some _ => true
                     | None => false
                     end) ts.
Proof.
  induction ts as [| t ts IH]; simpl; [reflexivity |].
  rewrite map_app, IH.
  destruct (candidateOf d e name label t) as [x |] eqn:Ec; simpl;
    [| reflexivity].
  now rewrite (candidateOf_type _ _ _ _ _ _ Ec).
Qed.

Lemma generated_length (d : Document) (e : Element) (ls : list Locator) :
  generateLocators d e = Normal ls -> (1 <= List.length ls <= 13)%nat.
Proof.
  intros H. destruct (generateLocators_inv d e ls H)
    as (name & label & _ & _ & ->).
  rewrite <- (length_map type), types_of_enumeration. split.
  - assert (Hx : In XPath
                   (filter (fun t => match candidateOf d e name label t with
                                     | Some _ => true
                                     | None => false
                                     end) all_types)).
    { apply filter_In. split; [apply all_types_complete | reflexivity]. }
    destruct (filter _ all_types); [destruct Hx | simpl; lia].
  - apply (Nat.le_trans _ _ _ (filter_length_le _ _)). reflexivity.
Qed.

(** X1.  Whenever [generateLocators] returns, the types of its
    candidates are a selection of the thirteen types in their fixed
    order: no type occurs twice, and the list has between one and
    thirteen entries. *)
Theorem generated_types_follow_fixed_order
  (d : Document) (e : Element) (ls : list Locator) :
  generateLocators d e = Normal ls ->
  (exists keep, map type ls = filter keep all_types) /\
  NoDup (map type ls) /\
  (1 <= List.length ls <= 13)%nat.
Proof.
  intros H. pose proof (generated_length d e ls H) as Hlen.
  destruct (generateLocators_inv d e ls H) as (name & label & _ & _ & ->).
  rewrite types_of_enumeration.
  split; [eexists; reflexivity |].
  split; [apply NoDup_filter, all_types_NoDup | exact Hlen].
Qed.

Lemma generated_types_witness :
  exists ls,
    generateLocators Samples.loginPage Samples.loginButton = Normal ls /\
    NoDup (map type ls).
Proof.
  eexists. split.
  - vm_compute. reflexivity.
  - apply (generated_types_follow_fixed_order
             Samples.loginPage Samples.loginButton).
    vm_compute. reflexivity.
Defined.

(** X2.  A role candidate and a role-attr candidate never occur
    together, and an element with a non-empty [aria-label] never gets a
    role-attr candidate: its label is its accessible name. *)
Theorem role_and_role_attr_exclude_each_other
  (d : Document) (e : Element) (ls : list Locator) :
  generateLocators d e = Normal ls ->
  (filter (of_type Role) ls = [] \/ filter (of_type RoleAttr) ls = []) /\
  (truthy (getAttribute e "aria-label") = true ->
   filter (of_type RoleAttr) ls = []).
Proof.
  intros H. destruct (generateLocators_inv d e ls H)
    as (name & label & Hname & _ & ->).
  assert (Hnone : forall t,
             candidateOf d e name label t = None ->
             filter (of_type t)
               (flat_map (fun t => option_list (candidateOf d e name label t))
                         all_types) = []).
  { intros t Ht.
    destruct (filter (of_type t) _) as [| x rest] eqn:Ef; [reflexivity |].
    assert (Hin : In x (filter (of_type t)
                   (flat_map
                      (fun t => option_list (candidateOf d e name label t))
                      all_types))) by (rewrite Ef; now left).
    apply filter_In in Hin. destruct Hin as [Hin Hty].
    apply in_enumeration in Hin.
    assert (type x = t).
    { unfold of_type, LocatorType_eqb in Hty.
      destruct (type x), t; simpl in Hty; try discriminate Hty;
        reflexivity. }
    congruence. }
  split.
  - destruct (truthy name) eqn:En.
    + right. apply Hnone. simpl. rewrite En, andb_false_r. reflexivity.
    + left. apply Hnone. simpl. rewrite En, andb_false_r. reflexivity.
  - intros Ha. apply Hnone. simpl.
    unfold getAccessibleName in Hname. rewrite Ha in Hname.
    inversion Hname; subst name. rewrite Ha, andb_false_r. reflexivity.
Qed.

Lemma role_exclusion_witness :
  exists ls,
    generateLocators Samples.loginPage Samples.loginButton = Normal ls /\
    filter (of_type RoleAttr) ls = [].
Proof.
  eexists. split.
  - vm_compute. reflexivity.
  - apply (role_and_role_attr_exclude_each_other
             Samples.loginPage Samples.loginButton);
      vm_compute; reflexivity.
Defined.

Lemma keep_if_some (c : bool) (x l : Locator) :
  keep_if c x = Some l <-> c = true /\ l = x.
Proof.
  unfold keep_if. destruct c; split.
  - intros H. inversion H. auto.
  - intros [_ ->]. reflexivity.
  - discriminate.
  - intros [H _]. discriminate H.
Qed.

(** Two structural-selector candidates with the same expression have the
    same match count. *)
Lemma rawScore_same_expression (d : Document) (a b : Locator) (e : Element) :
  value a = value b -> queryType a = queryType b ->
  (rawScore d a e - typeBonuses (type a)
   = rawScore d b e - typeBonuses (type b))%Z.
Proof.
  intros Hv Hq. unfold rawScore, matchCountOf. rewrite Hv, Hq. lia.
Qed.

(** X3.  Whenever an id candidate is generated, the list also holds a
    css candidate with the very same expression [#id]; the two differ
    only in type, and the css candidate never scores higher. *)
Theorem id_candidate_is_repeated_as_css
  (d : Document) (e : Element) (ls : list Locator) (l : Locator) :
  generateLocators d e = Normal ls -> In l ls -> type l = Id ->
  value l = "#" ++ id e /\
  exists c sl sc,
    In c ls /\ type c = Css /\ value c = value l /\
    calculateScore d l e = Normal sl /\
    calculateScore d c e = Normal sc /\
    (sc <= sl)%Z.
Proof.
  intros H Hin Ht. destruct (generateLocators_inv d e ls H)
    as (name & label & _ & _ & ->).
  apply in_enumeration in Hin. rewrite Ht in Hin. simpl in Hin.
  apply keep_if_some in Hin. destruct Hin as [Hc ->].
  apply andb_true_iff in Hc. destruct Hc as [Hid _].
  split; [reflexivity |].
  pose proof (generateCssSelector_id d e Hid) as Hcss.
  set (c := mkLocator Css (generateCssSelector d e) "CSS selector" QCss None).
  exists c. do 2 eexists.
  split; [| split; [| split; [| split; [| split]]]].
  - apply in_enumeration. simpl. apply keep_if_some. split; [| reflexivity].
    rewrite Hcss. reflexivity.
  - reflexivity.
  - simpl. exact Hcss.
  - apply calculateScore_normal.
  - apply calculateScore_normal.
  - pose proof (rawScore_same_expression d c
                  (mkLocator Id (generatedExpression Id (id e)) "Element ID"
                             QCss None) e Hcss eq_refl) as Hr.
    simpl in Hr. lia.
Qed.

Lemma truthy_some (p : string) : p <> "" -> truthy (Some p) = true.
Proof.
  intros H. simpl. unfold truthy_string.
  apply negb_true_iff, String.eqb_neq, H.
Qed.

(** X4.  An input without [aria-label], [aria-labelledby] and id, but
    with a non-empty placeholder, is named by its placeholder: besides
    the placeholder candidate, [generateLocators] returns a role
    candidate that carries the placeholder as accessible name, with the
    [role] attribute or else the implicit role of the input. *)
Theorem input_placeholder_names_a_role_candidate
  (d : Document) (e : Element) (p : string) :
  tagName e = "INPUT" ->
  truthy (getAttribute e "aria-label") = false ->
  truthy (getAttribute e "aria-labelledby") = false ->
  id e = "" ->
  getAttribute e "placeholder" = Some p -> p <> "" ->
  getAccessibleName d e = Normal (Some p) /\
  exists ls role,
    generateLocators d e = Normal ls /\
    js_or (getAttribute e "role") (getImplicitRole e) = Some role /\
    role <> "" /\
    In (mkLocator Role (generatedExpression Role role)
          "ARIA role with accessible name" QCss (Some p)) ls /\
    In (mkLocator Placeholder (generatedExpression Placeholder p)
          "Input placeholder" QCss None) ls.
Proof.
  intros Htag Hal Halb Hid Hp Hne.
  pose proof (truthy_some p Hne) as Htp.
  assert (Hname : getAccessibleName d e = Normal (Some p)).
  { unfold getAccessibleName. rewrite Hal, Halb, Htag, Hid, Hp, Htp.
    reflexivity. }
  split; [exact Hname |].
  assert (Hrole : exists role,
             js_or (getAttribute e "role") (getImplicitRole e) = Some role
             /\ role <> "").
  { unfold js_or. destruct (truthy (getAttribute e "role")) eqn:Er.
    - destruct (getAttribute e "role") as [r |]; [| discriminate Er].
      exists r. split; [reflexivity |].
      intros ->. discriminate Er.
    - unfold getImplicitRole. rewrite Htag. simpl.
      destruct (is_value (getAttribute e "type") "checkbox");
        [eexists; split; [reflexivity | discriminate] |].
      destruct (is_value (getAttribute e "type") "radio");
        [eexists; split; [reflexivity | discriminate] |].
      destruct (is_value (getAttribute e "type") "submit");
        [eexists; split; [reflexivity | discriminate] |].
      destruct (is_value (getAttribute e "type") "button");
        eexists; split; try reflexivity; discriminate. }
  destruct Hrole as (role & Hrole & Hrne).
  exists (flat_map (fun t => option_list (candidateOf d e (Some p) None t))
                   all_types), role.
  split.
  { rewrite generateLocators_enumerates. unfold enumerateCandidates.
    rewrite Hname. unfold labelLookup. rewrite Hid. reflexivity. }
  split; [exact Hrole |]. split; [exact Hrne |]. split.
  - apply in_enumeration. cbn [type candidateOf].
    rewrite Hrole. apply keep_if_some.
    rewrite (truthy_some role Hrne), Htp. split; reflexivity.
  - apply in_enumeration. cbn [type candidateOf].
    rewrite Hp. apply keep_if_some. rewrite Htp. split; reflexivity.
Qed.

(** X5.  Text names only buttons and anchors: an element of any other
    tag than button, input, a and img, without [aria-label] and
    [aria-labelledby], has no accessible name, so it never gets a role
    candidate, whatever its role and its text. *)
Theorem other_tags_have_no_name_from_text
  (d : Document) (e : Element) (ls : list Locator) :
  truthy (getAttribute e "aria-label") = false ->
  truthy (getAttribute e "aria-labelledby") = false ->
  tagName e <> "BUTTON" -> tagName e <> "INPUT" ->
  tagName e <> "A" -> tagName e <> "IMG" ->
  generateLocators d e = Normal ls ->
  getAccessibleName d e = Normal None /\
  (forall l, In l ls -> type l <> Role).
Proof.
  intros Hal Halb Hb Hi Ha Hm Hgen.
  apply String.eqb_neq in Hb, Hi, Ha, Hm.
  assert (Hname : getAccessibleName d e = Normal None).
  { unfold getAccessibleName. rewrite Hal, Halb, Hb, Hi, Ha, Hm.
    reflexivity. }
  split; [exact Hname |].
  destruct (generateLocators_inv d e ls Hgen)
    as (name & label & Hname' & _ & ->).
  rewrite Hname in Hname'. inversion Hname'; subst name.
  intros l Hin Ht. apply in_enumeration in Hin. rewrite Ht in Hin.
  simpl in Hin. rewrite andb_false_r in Hin. unfold keep_if in Hin.
  discriminate Hin.
Qed.

(** X7.  Whenever [buildLocatorInfo] returns, the entry [locators[0]]
    that the tooltip and [copyBestLocator] read exists and no entry
    scores higher; the list has at most thirteen entries and one of them
    is the XPath candidate. *)
Theorem best_locator_exists_and_is_maximal
  (d : Document) (e : Element) (info : LocatorInfo) :
  buildLocatorInfo d e = Normal info ->
  (exists best rest,
      locators info = best :: rest /\
      Forall (fun r => (score r <= score best)%Z) rest) /\
  (List.length (locators info) <= 13)%nat /\
  (exists r, In r (locators info) /\ locator r = xpathLocator d e).
Proof.
  unfold buildLocatorInfo.
  destruct (generateLocators d e) as [ls | ex] eqn:Eg; simpl;
    [| discriminate].
  rewrite rankLocators_normal. simpl. intros H. inversion H; subst info.
  simpl. clear H.
  pose proof (generated_length d e ls Eg) as Hlen.
  destruct (generateLocators_last_is_xpath d e ls Eg) as [front Hfront].
  pose proof (sort_perm (map (rankOf d e) ls)) as Hperm.
  pose proof (sort_sorted (map (rankOf d e) ls)) as Hsorted.
  assert (Hl : List.length (sort (map (rankOf d e) ls)) = List.length ls).
  { rewrite (Permutation_length Hperm). apply length_map. }
  split; [| split].
  - destruct (sort (map (rankOf d e) ls)) as [| best rest];
      [simpl in Hl; lia |].
    exists best, rest. split; [reflexivity |].
    inversion Hsorted; subst. assumption.
  - lia.
  - exists (rankOf d e (xpathLocator d e)). split.
    + apply (Permutation_in _ (Permutation_sym Hperm)).
      apply in_map. rewrite Hfront. apply in_or_app. right. now left.
    + apply rankOf_score.
Qed.

(* ================================================================== *)
(** ** Framework conversion of the generated candidates *)

Lemma truthy_unwrap (v : option string) : truthy v = true -> unwrap v <> "".
Proof.
  destruct v as [s |]; simpl; [| discriminate].
  unfold truthy_string. intros H.
  apply negb_true_iff, String.eqb_neq in H. exact H.
Qed.

Lemma truthy_string_nonempty (s : string) :
  truthy_string s = true -> s <> "".
Proof.
  unfold truthy_string. intros H.
  apply negb_true_iff, String.eqb_neq in H. exact H.
Qed.

Lemma generateXPath_nonempty (d : Document) (e : Element) :
  generateXPath d e <> "".
Proof.
  unfold generateXPath. destruct (truthy_string (id e)); discriminate.
Qed.

(** Every candidate [generateLocators] builds holds the expression of
    its type on some literal, empty at most for [label]; the role
    candidate carries a non-empty accessible name and no other candidate
    carries one. *)
Lemma generated_shape (d : Document) (e : Element) (ls : list Locator)
  (l : Locator) :
  generateLocators d e = Normal ls -> In l ls ->
  (exists x, value l = generatedExpression (type l) x /\
             (type l <> Label -> x <> "")) /\
  (if of_type Role l then truthy (accessibleName l) = true
   else accessibleName l = None).
Proof.
  intros Hgen Hin.
  destruct (generateLocators_inv d e ls Hgen) as (name & label & _ & _ & ->).
  apply in_enumeration in Hin.
  destruct l as [t v r k n]. unfold of_type. cbn [type value accessibleName] in *.
  destruct t; cbn [candidateOf LocatorType_eqb] in Hin |- *.
  all: try (apply keep_if_some in Hin; destruct Hin as [Hc Heq];
            inversion Heq; subst; clear Heq).
  all: try (apply andb_true_iff in Hc; destruct Hc as [Hc Hc']).
  all: try (split; [eexists; split; [reflexivity |];
                    intros _; first [ now apply truthy_unwrap
                                    | now apply truthy_string_nonempty ]
                   | first [reflexivity | assumption]]).
  - (* label *)
    destruct label as [lab |]; [| discriminate Hin].
    inversion Hin; subst. split; [| reflexivity].
    eexists. split; [reflexivity |]. intros H. now elim H.
  - (* xpath *)
    inversion Hin; subst. split; [| reflexivity].
    exists (generateXPath d e). split; [reflexivity |].
    intros _. apply generateXPath_nonempty.
Qed.

(** C9, amended.  [convertToPlaywright] has an explicit case for every
    type but [title], and [convertToSelenium] for every type but [title]
    and [role-attr]; those fall to the generic structural-selector call.
    On the expression of a type, whatever the candidate's reason, query
    type and accessible name, each conversion yields the call of the
    type with exactly the literal, when the literal is one the patterns
    take out whole; a role candidate without a name is left unconverted
    by the Playwright conversion.  Every candidate [generateLocators]
    builds holds such an expression, with a non-empty literal unless its
    type is [label], and carries an accessible name exactly when it is
    the role candidate; so it is converted to the call of its type.  The
    output is determined by the type, the expression, the accessible
    name and the framework. *)
Theorem conversion_templates_by_type :
  (forall t, playwrightCase t = None <-> t = Title) /\
  (forall t, seleniumCase t = None <-> t = Title \/ t = RoleAttr) /\
  (forall t x r k n,
      extractable t x ->
      let l := mkLocator t (generatedExpression t x) r k n in
      convertToFramework l "playwright" = playwrightOutput t x n /\
      convertToFramework l "selenium" = seleniumCall t x) /\
  (forall d e ls l,
      generateLocators d e = Normal ls -> In l ls ->
      (exists x, value l = generatedExpression (type l) x /\
                 (type l <> Label -> x <> "")) /\
      (if of_type Role l then truthy (accessibleName l) = true
       else accessibleName l = None)) /\
  (forall d e ls l x,
      generateLocators d e = Normal ls -> In l ls ->
      value l = generatedExpression (type l) x ->
      extractable (type l) x ->
      convertToFramework l "playwright"
      = playwrightCall (type l) x (unwrap (accessibleName l)) /\
      convertToFramework l "selenium" = seleniumCall (type l) x) /\
  (forall l l' framework,
      type l = type l' -> value l = value l' ->
      accessibleName l = accessibleName l' ->
      convertToFramework l framework = convertToFramework l' framework).
Proof.
  split; [| split; [| split; [| split; [| split]]]].
  - intros t. destruct t; simpl; split; intros H;
      try discriminate H; reflexivity.
  - intros t. destruct t; simpl; split; intros H;
      try discriminate H; try (destruct H as [H | H]; discriminate H);
      auto.
  - intros t x r k n He l. subst l. split.
    + change (convertToFramework ?a "playwright")
        with (convertToPlaywright a).
      now apply convertToPlaywright_on_expression.
    + change (convertToFramework ?a "selenium") with (convertToSelenium a).
      now apply convertToSelenium_on_expression.
  - exact generated_shape.
  - intros d e ls l x Hgen Hin Hv He.
    destruct (generated_shape d e ls l Hgen Hin) as [_ Hn].
    destruct l as [t v r k n]. unfold of_type in Hn.
    cbn [type value accessibleName] in *. subst v. split.
    + change (convertToFramework ?a "playwright")
        with (convertToPlaywright a).
      rewrite (convertToPlaywright_on_expression t x r k n He).
      destruct t; try reflexivity.
      cbn [LocatorType_eqb] in Hn. unfold playwrightOutput.
      rewrite Hn. reflexivity.
    + change (convertToFramework ?a "selenium") with (convertToSelenium a).
      now apply convertToSelenium_on_expression.
  - intros [t v r k n] [t' v' r' k' n'] framework. simpl.
    intros -> -> ->.
    unfold convertToFramework, convertToPlaywright, convertToSelenium,
      playwrightDefault, seleniumDefault.
    destruct (String.eqb (JSString.toLowerCase framework) "playwright");
      [| destruct (String.eqb (JSString.toLowerCase framework) "selenium")];
      simpl; destruct t'; reflexivity.
Qed.

(** The placeholder candidate and the structural candidate of
    [<input placeholder=Username>], each without accessible name and the
    second with double quotes in its expression, as [generateLocators]
    builds them, and their conversions. *)
Lemma conversion_templates_witness :
  exists ls,
    generateLocators Cases.usernamePage Cases.usernameInput = Normal ls /\
    In Cases.usernamePlaceholder ls /\
    In Cases.usernameCss ls /\
    convertToFramework Cases.usernamePlaceholder "playwright"
    = "page.getByPlaceholder('Username')" /\
    convertToFramework Cases.usernamePlaceholder "selenium"
    = "driver.find_element(By.CSS_SELECTOR, '[placeholder=" ++ q
        ++ "Username" ++ q ++ "]')" /\
    convertToFramework Cases.usernameCss "playwright"
    = "page.locator('input[placeholder=" ++ q ++ "Username" ++ q ++ "]')".
Proof.
  destruct conversion_templates_by_type as (_ & _ & _ & _ & H & _).
  eexists. split; [vm_compute; reflexivity |].
  assert (Hp : In Cases.usernamePlaceholder
                 (flat_map (fun t => option_list
                    (candidateOf Cases.usernamePage Cases.usernameInput
                       (Some "Username") None t)) all_types)).
  { apply in_enumeration. reflexivity. }
  assert (Hc : In Cases.usernameCss
                 (flat_map (fun t => option_list
                    (candidateOf Cases.usernamePage Cases.usernameInput
                       (Some "Username") None t)) all_types)).
  { apply in_enumeration. reflexivity. }
  split; [exact Hp |]. split; [exact Hc |].
  destruct (H Cases.usernamePage Cases.usernameInput _
              Cases.usernamePlaceholder "Username"
              ltac:(vm_compute; reflexivity) Hp ltac:(reflexivity)
              ltac:(split; [reflexivity | discriminate]))
    as [Hpw Hse].
  destruct (H Cases.usernamePage Cases.usernameInput _
              Cases.usernameCss
              ("input[placeholder=" ++ q ++ "Username" ++ q ++ "]")
              ltac:(vm_compute; reflexivity) Hc ltac:(reflexivity) I)
    as [Hpw' _].
  split; [exact Hpw |]. split; [exact Hse | exact Hpw'].
Defined.

(* ================================================================== *)
(** ** More on scores *)

Lemma uniquenessTerm_cases (n : nat) :
  (n = 1%nat /\ uniquenessTerm n = 10%Z) \/
  (n = 0%nat /\ uniquenessTerm n = (-20)%Z) \/
  ((2 <= n)%nat /\ uniquenessTerm n = (- ((Z.of_nat n - 1) * 5))%Z).
Proof.
  destruct n as [| [| n]].
  - right. left. split; reflexivity.
  - left. split; reflexivity.
  - right. right. split; [lia | reflexivity].
Qed.

Lemma lengthTerm_cases (v : string) :
  ((String.length v < 30)%nat /\ lengthTerm v = 5%Z) \/
  ((30 <= String.length v)%nat /\ (lengthTerm v <= 0)%Z).
Proof.
  unfold lengthTerm.
  destruct (String.length v <? 30)%nat eqn:E.
  - left. apply Nat.ltb_lt in E. split; [exact E | reflexivity].
  - right. apply Nat.ltb_ge in E. split; [exact E |].
    destruct (150 <? String.length v)%nat; lia.
Qed.

(** X8.  The type caps the score: no candidate scores above its type
    weight plus 70, so a text candidate never exceeds 90, a css
    candidate 85 and an XPath candidate 80; and such a candidate reaches
    its cap exactly when it matches one element, has no dynamic part,
    its element is visible and its expression is shorter than 30
    characters. *)
Theorem score_is_capped_by_type (d : Document) (l : Locator) (e : Element) :
  exists s,
    calculateScore d l e = Normal s /\
    (s <= Z.min 100 (typeBonuses (type l) + 70))%Z /\
    ((typeBonuses (type l) <= 30)%Z ->
     (s = typeBonuses (type l) + 70)%Z <->
     (matchCountOf d l = 1%nat /\ hasDynamicParts (value l) = false /\
      isElementVisible e = true /\ (String.length (value l) < 30)%nat)).
Proof.
  eexists. split; [apply calculateScore_normal |].
  unfold rawScore.
  assert (Hb : (10 <= typeBonuses (type l) <= 90)%Z)
    by (destruct (type l); simpl; lia).
  destruct (uniquenessTerm_cases (matchCountOf d l))
    as [[Hn Hu] | [[Hn Hu] | [Hn Hu]]];
    destruct (lengthTerm_cases (value l)) as [[Hl Ht] | [Hl Ht]];
    destruct (hasDynamicParts (value l)), (isElementVisible e);
    (split; [lia |]); intros Hlow; split;
    try (intros H; exfalso; lia);
    try (intros (H1 & H2 & H3 & H4); try discriminate; exfalso; lia);
    try (intros _; repeat split; try assumption; lia).
Qed.

(** X9.  More matches never score higher.  For a fixed candidate and
    element, going from one document state to another in which the
    candidate matches at least as many elements (and at least one) does
    not raise the score; before the clamp, the second match costs 15
    points and each further one 5. *)
Theorem more_matches_never_score_higher
  (d1 d2 : Document) (l : Locator) (e : Element) :
  (1 <= matchCountOf d1 l <= matchCountOf d2 l)%nat ->
  exists s1 s2,
    calculateScore d1 l e = Normal s1 /\
    calculateScore d2 l e = Normal s2 /\
    (s2 <= s1)%Z /\
    (matchCountOf d1 l = 1%nat -> (2 <= matchCountOf d2 l)%nat ->
     (rawScore d1 l e - rawScore d2 l e
      = 5 * Z.of_nat (matchCountOf d2 l) + 5)%Z).
Proof.
  intros Hm. do 2 eexists.
  split; [apply calculateScore_normal |].
  split; [apply calculateScore_normal |].
  unfold rawScore.
  destruct (uniquenessTerm_cases (matchCountOf d1 l))
    as [[Hn1 Hu1] | [[Hn1 Hu1] | [Hn1 Hu1]]];
    destruct (uniquenessTerm_cases (matchCountOf d2 l))
      as [[Hn2 Hu2] | [[Hn2 Hu2] | [Hn2 Hu2]]];
    rewrite Hu1, Hu2; split; intros; lia.
Qed.

(** X10.  In a document whose selector engine rejects selectors that
    open with an identifier followed by [=], every role candidate
    [generateLocators] produces scores at least 80 and is rated
    Excellent, whatever the element and the page. *)
Theorem role_candidate_is_always_excellent
  (d : Document) (e : Element) (ls : list Locator) (l : Locator) :
  (forall s, identThenEquals s = true ->
             querySelectorAll d s = Throw SyntaxError) ->
  generateLocators d e = Normal ls -> In l ls -> type l = Role ->
  exists s,
    calculateScore d l e = Normal s /\
    (80 <= s)%Z /\ getStabilityLevel s = Excellent.
Proof.
  intros Hlaw Hgen Hin Ht.
  destruct (role_candidate_shape d e ls l Hgen Hin Ht) as (Hq & role & Hv).
  assert (Hcount : matchCountOf d l = 0%nat).
  { unfold matchCountOf. rewrite Hq, (Hlaw (value l)); [reflexivity |].
    rewrite Hv. reflexivity. }
  eexists. split; [apply calculateScore_normal |].
  assert (Hs : (80 <= Z.max 0 (Z.min 100 (rawScore d l e)))%Z).
  { unfold rawScore, lengthTerm. rewrite Hcount, Ht.
    cbn [typeBonuses uniquenessTerm].
    destruct (hasDynamicParts (value l)), (isElementVisible e),
      (String.length (value l) <? 30)%nat,
      (150 <? String.length (value l))%nat; lia. }
  split; [exact Hs |].
  apply getStabilityLevel_thresholds. exact Hs.
Qed.

Lemma role_excellent_witness :
  exists s,
    calculateScore Samples.loginPage Samples.loginRole Samples.loginButton
    = Normal s /\ (80 <= s)%Z /\ getStabilityLevel s = Excellent.
Proof.
  eapply (role_candidate_is_always_excellent
            Samples.loginPage Samples.loginButton _ Samples.loginRole).
  - apply page_rejects_ident_equals.
  - vm_compute. reflexivity.
  - simpl. right. left. reflexivity.
  - reflexivity.
Defined.

(* ================================================================== *)
(** ** Dynamic parts *)

Lemma matches_prefix_Void (s : string) :
  Regex.matches_prefix Regex.Void s = false.
Proof.
  induction s as [| c s IH]; simpl; [reflexivity | exact IH].
Qed.

Lemma cat_Eps_l (b : Regex.re) : Regex.cat Regex.Eps b = b.
Proof.
  destruct b; reflexivity.
Qed.

(** A fixed number of characters of one class. *)
Lemma matches_prefix_times (p : ascii -> bool) (n : nat) (s : string) :
  Regex.matches_prefix (Regex.times n (Regex.Chr p)) s = prefix_run p n s.
Proof.
  revert s. induction n as [| n IH]; intros s.
  - destruct s; reflexivity.
  - destruct s as [| c s]; [reflexivity |].
    cbn [Regex.times Regex.matches_prefix Regex.nullable Regex.deriv andb orb
         prefix_run].
    destruct (p c); cbn [andb].
    + rewrite cat_Eps_l. apply IH.
    + apply matches_prefix_Void.
Qed.

Lemma matches_prefix_at_least_rest (p : ascii -> bool) (n : nat) (s : string) :
  Regex.matches_prefix (at_least_rest n (Regex.Chr p)) s = prefix_run p n s.
Proof.
  revert s. induction n as [| n IH]; intros s.
  - destruct s; reflexivity.
  - destruct s as [| c s]; [reflexivity |].
    change (at_least_rest (S n) (Regex.Chr p))
      with (Regex.Cat (Regex.Cat (Regex.Chr p) (Regex.times n (Regex.Chr p)))
                      (Regex.Star (Regex.Chr p))).
    cbn [Regex.matches_prefix Regex.nullable Regex.deriv andb orb
         prefix_run].
    destruct (p c); cbn [andb].
    + rewrite cat_Eps_l. apply IH.
    + apply matches_prefix_Void.
Qed.

Lemma matches_prefix_at_least (p : ascii -> bool) (n : nat) (s : string) :
  Regex.matches_prefix (Regex.at_least (S n) (Regex.Chr p)) s
  = prefix_run p (S n) s.
Proof.
  apply (matches_prefix_at_least_rest p (S n) s).
Qed.

Lemma prefix_run_le (p : ascii -> bool) (m n : nat) (s : string) :
  (m <= n)%nat -> prefix_run p n s = true -> prefix_run p m s = true.
Proof.
  revert n s. induction m as [| m IH]; intros n s Hle H; [reflexivity |].
  destruct n as [| n]; [lia |].
  destruct s as [| c s]; [discriminate H |].
  simpl in *. apply andb_true_iff in H. destruct H as [Hc H].
  rewrite Hc. simpl. apply (IH n); [lia | exact H].
Qed.

Lemma test_of_prefix (r : Regex.re) (s : string) :
  Regex.matches_prefix r s = true -> Regex.test r s = true.
Proof.
  intros H. destruct s; simpl in *; rewrite H; reflexivity.
Qed.

Lemma test_app_l (r : Regex.re) (a s : string) :
  Regex.test r s = true -> Regex.test r (a ++ s) = true.
Proof.
  intros H. induction a as [| c a IH]; [exact H |].
  change (Regex.test r (String c (a ++ s)) = true).
  cbn [Regex.test]. rewrite IH. apply orb_true_r.
Qed.

Lemma test_monotone (r1 r2 : Regex.re) (s : string) :
  (forall t, Regex.matches_prefix r1 t = true ->
             Regex.matches_prefix r2 t = true) ->
  Regex.test r1 s = true -> Regex.test r2 s = true.
Proof.
  intros Hm. induction s as [| c s IH]; cbn [Regex.test]; intros H.
  - rewrite orb_false_r in *. now apply Hm.
  - apply orb_true_iff in H. apply orb_true_iff.
    destruct H as [H | H]; [left; now apply Hm | right; now apply IH].
Qed.

Lemma prefix_run_nonempty (p : ascii -> bool) (n : nat) (a s : string) :
  prefix_run p (S n) s = true -> truthy_string (a ++ s) = true.
Proof.
  destruct s as [| c s]; [discriminate |]. intros _.
  destruct a; reflexivity.
Qed.

(** X11.  Every value that holds four digits in a row is flagged
    dynamic, wherever they stand. *)
Theorem four_digits_are_dynamic (a s : string) :
  prefix_run JSString.is_digit 4 s = true ->
  hasDynamicParts (a ++ s) = true.
Proof.
  intros H. unfold hasDynamicParts.
  rewrite (prefix_run_nonempty _ 3 a s H).
  cbn [negb dynamicPatterns existsb].
  replace (Regex.test (Regex.at_least 4 Regex.digit) (a ++ s)) with true;
    [reflexivity |].
  symmetry. apply test_app_l, test_of_prefix.
  unfold Regex.digit. rewrite matches_prefix_at_least. exact H.
Qed.

Lemma four_digits_witness :
  hasDynamicParts ("user-" ++ "2024-profile") = true.
Proof.
  apply (four_digits_are_dynamic "user-" "2024-profile"). reflexivity.
Defined.

(** X12.  The timestamp pattern never decides: a value with thirteen
    digits in a row already has four, so [hasDynamicParts] gives the same
    answer without the last pattern of its list. *)
Theorem timestamp_pattern_is_redundant (str : string) :
  hasDynamicParts str = hasDynamicPartsWithoutTimestamps str.
Proof.
  unfold hasDynamicParts, hasDynamicPartsWithoutTimestamps.
  destruct (negb (truthy_string str)); [reflexivity |].
  cbn [dynamicPatterns removelast existsb].
  destruct (Regex.test (Regex.at_least 13 Regex.digit) str) eqn:E13.
  - assert (E4 : Regex.test (Regex.at_least 4 Regex.digit) str = true).
    { apply (test_monotone (Regex.at_least 13 Regex.digit)); [| exact E13].
      intros t. unfold Regex.digit.
      rewrite !matches_prefix_at_least. apply prefix_run_le. lia. }
    rewrite E4. reflexivity.
  - rewrite !orb_false_r. reflexivity.
Qed.

(** X13.  The colour pattern hits id selectors: when an id begins with
    six hexadecimal digits (decade, facade, c0ffee...), the expression
    [#id] of its id and css candidates is flagged dynamic. *)
Theorem hex_id_is_flagged_dynamic (i : string) :
  prefix_run is_hex 6 i = true ->
  hasDynamicParts (generatedExpression Id i) = true.
Proof.
  intros H. unfold hasDynamicParts, generatedExpression.
  cbn [append truthy_string String.eqb negb dynamicPatterns existsb].
  replace (Regex.test
             (Regex.Cat (Regex.lit "#"%char) (Regex.times 6 Regex.hex_i))
             (String "#"%char i)) with true;
    [rewrite !orb_true_r; reflexivity |].
  symmetry. apply test_of_prefix.
  cbn [Regex.matches_prefix Regex.nullable Regex.lit Regex.deriv andb orb
       Ascii.eqb Bool.eqb].
  rewrite cat_Eps_l.
  change Regex.hex_i with (Regex.Chr is_hex).
  rewrite matches_prefix_times. exact H.
Qed.

Lemma hex_id_witness :
  hasDynamicParts (generatedExpression Id "decade") = true.
Proof.
  apply (hex_id_is_flagged_dynamic "decade"). reflexivity.
Defined.

(* ================================================================== *)
(** ** Stable text *)

Lemma collapse_from_true_start (s : string) :
  starts_with_ws (JSString.collapse_from true s) = false.
Proof.
  induction s as [| c s IH]; simpl; [reflexivity |].
  destruct (JSString.is_ws c) eqn:E; [exact IH | simpl; exact E].
Qed.

Lemma collapse_from_single_spaced (b : bool) (s : string) :
  single_spaced (JSString.collapse_from b s) = true.
Proof.
  revert b. induction s as [| c s IH]; intros b; simpl; [reflexivity |].
  destruct (JSString.is_ws c) eqn:E.
  - destruct b; [apply IH |].
    simpl. rewrite collapse_from_true_start, IH. reflexivity.
  - simpl. rewrite E, IH. reflexivity.
Qed.

Lemma starts_with_ws_substring (n : nat) (s : string) :
  starts_with_ws s = false ->
  starts_with_ws (String.substring 0 n s) = false.
Proof.
  destruct s as [| c s], n as [| n]; simpl; auto.
Qed.

Lemma single_spaced_substring (n : nat) (s : string) :
  single_spaced s = true -> single_spaced (String.substring 0 n s) = true.
Proof.
  revert n. induction s as [| c s IH]; intros n H.
  - destruct n; reflexivity.
  - destruct n as [| n]; [reflexivity |].
    simpl in *. apply andb_true_iff in H. destruct H as [Hc Hs].
    rewrite (IH n Hs), andb_true_r.
    destruct (JSString.is_ws c); [| reflexivity].
    apply andb_true_iff in Hc. destruct Hc as [Hsp Hnext].
    rewrite Hsp. simpl. apply negb_true_iff.
    apply starts_with_ws_substring. now apply negb_true_iff.
Qed.

Lemma trimStart_start (s : string) :
  starts_with_ws (JSString.trimStart s) = false.
Proof.
  induction s as [| c s IH]; simpl; [reflexivity |].
  destruct (JSString.is_ws c) eqn:E; [exact IH | simpl; exact E].
Qed.

Lemma trimEnd_start (s : string) :
  starts_with_ws s = false -> starts_with_ws (JSString.trimEnd s) = false.
Proof.
  destruct s as [| c s]; simpl; [reflexivity |]. intros E.
  destruct (JSString.trimEnd s); [rewrite E |]; simpl; auto.
Qed.

Lemma collapse_ws_start (s : string) :
  starts_with_ws s = false ->
  starts_with_ws (JSString.collapse_ws s) = false.
Proof.
  destruct s as [| c s]; simpl; [reflexivity |]. intros E.
  unfold JSString.collapse_ws. simpl. rewrite E. simpl. exact E.
Qed.

(** X14.  [getStableText] returns null exactly when the text content is
    empty after trimming.  Otherwise its text is not empty, has at most
    100 characters, does not start with white space, and its only white
    space is single plain spaces: no tab, line break or run of spaces
    survives. *)
Theorem getStableText_is_normalized (e : Element) :
  (getStableText e = None <-> JSString.trim (textContent e) = "") /\
  (forall t, getStableText e = Some t ->
             t <> "" /\ (String.length t <= 100)%nat /\
             starts_with_ws t = false /\ single_spaced t = true).
Proof.
  unfold getStableText.
  destruct (truthy_string (JSString.trim (textContent e))) eqn:Et; simpl.
  - assert (Hne : JSString.trim (textContent e) <> "").
    { intros H. rewrite H in Et. discriminate Et. }
    split; [split; [discriminate | contradiction] |].
    intros t Ht. inversion Ht; subst t; clear Ht.
    pose proof (collapse_nonempty _ Et) as Hc.
    split; [| split; [| split]].
    + intros H.
      destruct (JSString.collapse_ws (JSString.trim (textContent e)));
        [discriminate Hc | discriminate H].
    + rewrite substring_length. lia.
    + apply starts_with_ws_substring, collapse_ws_start.
      unfold JSString.trim. apply trimEnd_start, trimStart_start.
    + apply single_spaced_substring, collapse_from_single_spaced.
  - split; [| discriminate].
    split; [intros _ | reflexivity].
    unfold truthy_string in Et. apply negb_false_iff in Et.
    now apply String.eqb_eq.
Qed.

(* ================================================================== *)
(** ** The walk of the structural selector *)






(* ================================================================== *)
(** ** Escaping for display *)

Lemma is_quote_eqb (c : ascii) :
  JSString.is_quote c = Ascii.eqb c (ascii_of_nat 34).
Proof.
  destruct c as [[] [] [] [] [] [] [] []]; reflexivity.
Qed.

Lemma includes_char_app (x : ascii) (a b : string) :
  JSString.includes_char x (a ++ b)
  = JSString.includes_char x a || JSString.includes_char x b.
Proof.
  induction a as [| c a IH]; simpl; [reflexivity |].
  rewrite IH. apply orb_assoc.
Qed.

Lemma escapeHtml_app (a b : string) :
  escapeHtml (a ++ b) = escapeHtml a ++ escapeHtml b.
Proof.
  induction a as [| c a IH]; simpl; [reflexivity |].
  rewrite IH. symmetry. apply append_assoc.
Qed.

Lemma escapeChar_clean (x c : ascii) :
  x = "<"%char \/ x = ">"%char \/ x = ascii_of_nat 34 \/ x = "'"%char ->
  JSString.includes_char x (escapeChar c) = false.
Proof.
  intros Hx. unfold escapeChar. rewrite is_quote_eqb.
  destruct (Ascii.eqb c "&"%char) eqn:E1;
    [destruct Hx as [-> | [-> | [-> | ->]]]; reflexivity |].
  destruct (Ascii.eqb c "<"%char) eqn:E2;
    [destruct Hx as [-> | [-> | [-> | ->]]]; reflexivity |].
  destruct (Ascii.eqb c ">"%char) eqn:E3;
    [destruct Hx as [-> | [-> | [-> | ->]]]; reflexivity |].
  destruct (Ascii.eqb c (ascii_of_nat 34)) eqn:E4;
    [destruct Hx as [-> | [-> | [-> | ->]]]; reflexivity |].
  destruct (Ascii.eqb c "'"%char) eqn:E5;
    [destruct Hx as [-> | [-> | [-> | ->]]]; reflexivity |].
  simpl. rewrite orb_false_r.
  destruct Hx as [-> | [-> | [-> | ->]]]; assumption.
Qed.

(** X16.  The output of [escapeHtml] holds no [<], no [>], no double
    and no single quote, whatever the text; and escaping distributes
    over concatenation. *)
Theorem escapeHtml_leaves_no_markup (text : string) :
  JSString.includes_char "<"%char (escapeHtml text) = false /\
  JSString.includes_char ">"%char (escapeHtml text) = false /\
  JSString.includes_char (ascii_of_nat 34) (escapeHtml text) = false /\
  JSString.includes_char "'"%char (escapeHtml text) = false /\
  (forall more, escapeHtml (text ++ more) = escapeHtml text ++ escapeHtml more).
Proof.
  assert (H : forall x,
             x = "<"%char \/ x = ">"%char \/ x = ascii_of_nat 34
             \/ x = "'"%char ->
             JSString.includes_char x (escapeHtml text) = false).
  { intros x Hx. induction text as [| c text IH]; [reflexivity |].
    cbn [escapeHtml]. rewrite includes_char_app, IH, orb_false_r.
    now apply escapeChar_clean. }
  repeat split; try (apply H; tauto).
  intros more. apply escapeHtml_app.
Qed.

(** X17.  [escapeHtml] loses nothing: two different texts never have the
    same escaped form. *)
Theorem escapeHtml_is_injective (a b : string) :
  escapeHtml a = escapeHtml b -> a = b.
Proof.
  revert b. induction a as [| ca a IH]; intros [| cb b].
  - reflexivity.
  - cbn [escapeHtml]. unfold escapeChar.
    repeat match goal with
           | |- context [if ?c then _ else _] => destruct c
           end; discriminate.
  - cbn [escapeHtml]. unfold escapeChar.
    repeat match goal with
           | |- context [if ?c then _ else _] => destruct c
           end; discriminate.
  - cbn [escapeHtml]. unfold escapeChar. rewrite !is_quote_eqb.
    destruct (Ascii.eqb ca "&"%char) eqn:A1;
      [| destruct (Ascii.eqb ca "<"%char) eqn:A2;
         [| destruct (Ascii.eqb ca ">"%char) eqn:A3;
            [| destruct (Ascii.eqb ca (ascii_of_nat 34)) eqn:A4;
               [| destruct (Ascii.eqb ca "'"%char) eqn:A5]]]];
      (destruct (Ascii.eqb cb "&"%char) eqn:B1;
       [| destruct (Ascii.eqb cb "<"%char) eqn:B2;
          [| destruct (Ascii.eqb cb ">"%char) eqn:B3;
             [| destruct (Ascii.eqb cb (ascii_of_nat 34)) eqn:B4;
                [| destruct (Ascii.eqb cb "'"%char) eqn:B5]]]]);
      cbn [append]; intros H; inversion H; subst;
      repeat match goal with
             | E : Ascii.eqb _ _ = true |- _ => apply Ascii.eqb_eq in E
             end;
      subst;
      try discriminate;
      try (f_equal; now apply IH);
      try (rewrite Ascii.eqb_refl in *; discriminate).
Qed.

Lemma escapeHtml_witness : "a<b" = "a<b".
Proof.
  apply (escapeHtml_is_injective "a<b" "a<b"). reflexivity.
Defined.

(* ================================================================== *)
(** ** The DOM snippet *)

Lemma span_until_gt_app (t rest : string) :
  JSString.includes_char ">"%char t = false ->
  span_until_gt (t ++ String ">"%char rest) = (t, String ">"%char rest).
Proof.
  induction t as [| c t IH]; simpl; intros H.
  - reflexivity.
  - apply orb_false_iff in H. destruct H as [Hc Ht].
    rewrite Hc, (IH Ht). reflexivity.
Qed.

(** X18.  For an element whose markup opens with a tag [<t>], the
    snippet is the whole markup when that has at most [maxLength]
    characters, and otherwise the opening tag up to its first [>]
    followed by three dots, however long that tag is: [maxLength] does
    not bound the snippet. *)
Theorem getDomSnippet_is_the_opening_tag
  (t rest : string) (maxLength : nat) :
  t <> "" -> JSString.includes_char ">"%char t = false ->
  let outerHTML := "<" ++ t ++ ">" ++ rest in
  getDomSnippet outerHTML maxLength
  = if (String.length outerHTML <=? maxLength)%nat then outerHTML
    else "<" ++ t ++ ">" ++ "...".
Proof.
  intros Hne Hgt outerHTML. unfold getDomSnippet.
  destruct (String.length outerHTML <=? maxLength)%nat; [reflexivity |].
  unfold outerHTML, openingTag. cbn [append Ascii.eqb Bool.eqb].
  rewrite (span_until_gt_app t rest Hgt).
  pose proof (nonempty_length t Hne) as Hlen.
  apply Nat.leb_le in Hlen. rewrite Hlen.
  cbn [append]. rewrite !append_assoc. reflexivity.
Qed.

Lemma getDomSnippet_witness :
  getDomSnippet ("<" ++ "div class=card data-id=7" ++ ">" ++ "<p>Hi</p></div>")
                10
  = "<div class=card data-id=7>...".
Proof.
  apply (getDomSnippet_is_the_opening_tag
           "div class=card data-id=7" "<p>Hi</p></div>" 10).
  - discriminate.
  - reflexivity.
Defined.

(* ================================================================== *)
(** ** The ARIA path of an element *)

Lemma presentAttributes_keys (e : Element) (names : list string) :
  Forall (fun kv => In (fst kv) names) (presentAttributes e names).
Proof.
  unfold presentAttributes. apply Forall_forall. intros kv Hin.
  apply in_flat_map in Hin. destruct Hin as (k & Hk & Hin).
  destruct (getAttribute e k); simpl in Hin; [| contradiction].
  destruct Hin as [<- | []]. exact Hk.
Qed.

Lemma ariaWalk_invariant (d : Document) (fuel : nat) (e : Element)
  (tree : list JSObject) :
  Forall ariaPathNodeOk tree ->
  Forall ariaPathNodeOk (ariaWalk d fuel e tree) /\
  (List.length (ariaWalk d fuel e tree) <= fuel + List.length tree)%nat.
Proof.
  revert e tree. induction fuel as [| fuel IH]; intros e tree Ht.
  - simpl. split; [exact Ht | lia].
  - cbn [ariaWalk].
    set (tree' := if (1 <? List.length (ariaPathNode e))%nat
                  then ariaPathNode e :: tree else tree).
    assert (Ht' : Forall ariaPathNodeOk tree'
                  /\ (List.length tree' <= S (List.length tree))%nat).
    { unfold tree'.
      destruct (1 <? List.length (ariaPathNode e))%nat eqn:E.
      - split; [| simpl; lia]. constructor; [| exact Ht].
        exists (JSString.toLowerCase (tagName e)),
               (presentAttributes e ariaPathKeys).
        split; [reflexivity |]. split.
        + apply Nat.ltb_lt in E. unfold ariaPathNode in E.
          intros Hnil. rewrite Hnil in E. simpl in E. lia.
        + apply presentAttributes_keys.
      - split; [exact Ht | lia]. }
    destruct Ht' as [Hok Hlen].
    destruct (is_documentElement d e); [split; [exact Hok | lia] |].
    destruct (parentElement e) as [p |]; [| split; [exact Hok | lia]].
    destruct (IH p tree' Hok) as [H1 H2]. split; [exact H1 | lia].
Qed.

(** X19.  [getAriaTree] returns at most ten nodes, and each of them
    starts with the tag and carries at least one of [role],
    [aria-label], [aria-describedby], [aria-labelledby], [aria-hidden]
    and [tabindex] and no other key: an ancestor without any of these is
    left out. *)
Theorem getAriaTree_is_bounded_and_informative (d : Document) (e : Element) :
  (List.length (getAriaTree d e) <= 10)%nat /\
  Forall ariaPathNodeOk (getAriaTree d e).
Proof.
  destruct (ariaWalk_invariant d 10 e [] (Forall_nil _)) as [H1 H2].
  split; [| exact H1].
  unfold getAriaTree. cbn [List.length] in H2.
  rewrite Nat.add_0_r in H2. exact H2.
Qed.

(* ================================================================== *)
(** ** The full DOM tree *)

Lemma dom_size_pos (n : DomNode) : (1 <= dom_size n)%nat.
Proof.
  destruct n; simpl; lia.
Qed.

Lemma serializeNode_some (fuel : nat) (n : DomNode) :
  exists r, serializeNode (S fuel) n = Some r.
Proof.
  simpl. eexists. reflexivity.
Qed.

Lemma serializeNode_bounds (fuel : nat) :
  forall n r,
    serializeNode fuel n = Some r ->
    (ser_height r <= fuel)%nat /\
    (ser_size r <= dom_size n)%nat /\
    (dom_height n <= fuel -> ser_size r = dom_size n)%nat /\
    (fuel < dom_height n -> ser_size r < dom_size n)%nat.
Proof.
  induction fuel as [| fuel IH]; intros n r H; [discriminate H |].
  simpl in H. inversion H; subst r; clear H.
  destruct n as [tag attrs cs | data | name kind].
  - fold (serializeChildren fuel cs).
    assert (Hcs :
      (fold_right (fun c h => Nat.max (ser_height c) h) 0
                  (serializeChildren fuel cs) <= fuel)%nat /\
      (fold_right (fun c s => ser_size c + s) 0 (serializeChildren fuel cs)
       <= fold_right (fun c s => dom_size c + s) 0 cs)%nat /\
      (fold_right (fun c h => Nat.max (dom_height c) h) 0 cs <= fuel ->
       fold_right (fun c s => ser_size c + s) 0 (serializeChildren fuel cs)
       = fold_right (fun c s => dom_size c + s) 0 cs)%nat /\
      (fuel < fold_right (fun c h => Nat.max (dom_height c) h) 0 cs ->
       fold_right (fun c s => ser_size c + s) 0 (serializeChildren fuel cs)
       < fold_right (fun c s => dom_size c + s) 0 cs)%nat).
    { induction cs as [| c cs IHcs].
      - simpl. repeat split; lia.
      - destruct IHcs as (Hh & Hs & He & Hl).
        pose proof (dom_size_pos c) as Hpos.
        unfold serializeChildren in *. cbn [flat_map fold_right].
        destruct (serializeNode fuel c) as [rc |] eqn:Ec.
        + destruct (IH c rc Ec) as (Hh1 & Hs1 & He1 & Hl1).
          cbn [app fold_right]. repeat split; try lia.
        + destruct fuel as [| fuel']; [| discriminate Ec].
          assert (Hc : (1 <= dom_height c)%nat)
            by (destruct c; simpl; lia).
          cbn [app]. repeat split; lia. }
    destruct Hcs as (Hh & Hs & He & Hl).
    cbn [ser_height ser_size dom_height dom_size].
    repeat split; lia.
  - simpl. repeat split; lia.
  - simpl. repeat split; lia.
Qed.

(** X20.  [getFullDOMTree] always returns a tree for the root element,
    of at most 21 levels.  It serializes every node of a document whose
    tree has at most 21 levels, comments and blank text nodes included,
    and silently loses nodes exactly when the document is deeper. *)
Theorem getFullDOMTree_keeps_twenty_one_levels (root : DomNode) :
  exists r,
    getFullDOMTree root = Some r /\
    (ser_height r <= 21)%nat /\
    (ser_size r <= dom_size root)%nat /\
    (ser_size r = dom_size root <-> (dom_height root <= 21)%nat).
Proof.
  unfold getFullDOMTree.
  destruct (serializeNode_some 20 root) as [r Hr].
  exists r. split; [exact Hr |].
  destruct (serializeNode_bounds 21 root r Hr) as (Hh & Hs & He & Hl).
  repeat split; try assumption.
  - intros Heq. destruct (Nat.le_gt_cases (dom_height root) 21) as [Hle | Hgt];
      [exact Hle | specialize (Hl Hgt); lia].
Qed.

(* ================================================================== *)
(** ** The full ARIA tree *)

Lemma test_letter (x : ascii) (s : string) :
  Regex.test (word (String x EmptyString)) s = JSString.includes_char x s.
Proof.
  induction s as [| c s IH].
  - reflexivity.
  - cbn [Regex.test JSString.includes_char]. rewrite IH. f_equal.
    cbn [word Regex.matches_prefix Regex.nullable Regex.deriv Regex.lit
         andb orb].
    rewrite (Ascii.eqb_sym x c).
    destruct (Ascii.eqb c x); [destruct s; reflexivity |].
    cbn [Regex.cat]. apply matches_prefix_Void.
Qed.

Lemma isSemanticHTML_letter_A (tag : string) :
  JSString.includes_char "A"%char tag = true -> isSemanticHTML tag = true.
Proof.
  intros H. unfold isSemanticHTML. cbn [existsb].
  rewrite (test_letter "A"%char tag), H.
  rewrite !orb_true_r. reflexivity.
Qed.

Lemma ariaScan_lists (x : Element) (before after : list Element) :
  forall processed,
    ~ In (node x) processed ->
    ~ In (node x) (map node before) ->
    skippedTag x = false -> styledAway x = false ->
    hasAriaAttr x || isSemanticHTML (tagName x)
      || hasIdentifier x || hasContent x = true ->
    In (fullAriaNode x) (ariaScan (before ++ x :: after) processed).
Proof.
  induction before as [| b before IH]; intros processed Hp Hb Hs Hd Hinc.
  - cbn [app ariaScan].
    replace (existsb (Nat.eqb (node x)) processed) with false.
    + rewrite Hs, Hd, Hinc. now left.
    + symmetry. apply not_true_is_false. intros Hex.
      apply existsb_exists in Hex. destruct Hex as (y & Hy & Heq).
      apply Nat.eqb_eq in Heq. subst y. contradiction.
  - cbn [app ariaScan].
    assert (Hnb : node x <> node b) by (intros Heq; apply Hb; now left).
    assert (Hb' : ~ In (node x) (map node before))
      by (intros Hin; apply Hb; now right).
    destruct (existsb (Nat.eqb (node b)) processed); [now apply IH |].
    assert (Hp' : ~ In (node x) (node b :: processed)).
    { intros [Heq | Hin]; [now apply Hnb | now apply Hp]. }
    destruct (skippedTag b); [now apply IH |].
    destruct (styledAway b); [now apply IH |].
    destruct (hasAriaAttr b || isSemanticHTML (tagName b)
              || hasIdentifier b || hasContent b);
      [right |]; now apply IH.
Qed.

(** X21.  The tag test of [getFullARIATree] matches the letter A
    anywhere in a tag name: every element the walker reaches whose tag
    holds an A (SPAN, TABLE, LABEL, NAV, ...), that is not a script,
    style or noscript element and is not styled away, is listed, also
    when it has no ARIA attribute, no identifier and no text. *)
Theorem tags_holding_an_A_are_always_listed
  (x : Element) (before after : list Element) :
  ~ In (node x) (map node before) ->
  skippedTag x = false -> styledAway x = false ->
  JSString.includes_char "A"%char (tagName x) = true ->
  In (fullAriaNode x) (ariaNodes (getFullARIATree (before ++ x :: after))).
Proof.
  intros Hb Hs Hd HA. unfold getFullARIATree. cbn [ariaNodes].
  apply ariaScan_lists; try assumption.
  - intros [].
  - rewrite (isSemanticHTML_letter_A _ HA), orb_true_r. reflexivity.
Qed.

Lemma fullAriaNode_ok (x : Element) : fullAriaNodeOk (fullAriaNode x).
Proof.
  unfold fullAriaNodeOk, fullAriaNode.
  exists (JSString.toLowerCase (tagName x)). eexists. exists (ariaText x).
  split.
  - cbn [app]. rewrite !app_assoc. reflexivity.
  - unfold ariaText. rewrite substring_length. lia.
Qed.

Lemma ariaScan_invariant (walker : list Element) :
  forall processed,
    Forall fullAriaNodeOk (ariaScan walker processed) /\
    (List.length (ariaScan walker processed) <= List.length walker)%nat.
Proof.
  induction walker as [| x walker IH]; intros processed.
  - simpl. split; [constructor | lia].
  - cbn [ariaScan List.length].
    destruct (existsb (Nat.eqb (node x)) processed);
      [destruct (IH processed); split; [assumption | lia] |].
    destruct (IH (node x :: processed)) as [H1 H2].
    destruct (skippedTag x); [split; [assumption | lia] |].
    destruct (styledAway x); [split; [assumption | lia] |].
    destruct (hasAriaAttr x || isSemanticHTML (tagName x)
              || hasIdentifier x || hasContent x).
    + split; [constructor; [apply fullAriaNode_ok | assumption] |].
      simpl. lia.
    + split; [assumption | lia].
Qed.

(** X22.  [getFullARIATree] lists at most one node per element the
    walker yields and reports their number as [totalAriaNodes]; every
    node starts with its tag and ends with a [textContent] entry of at
    most 100 characters, which is present even when the element has no
    text. *)
Theorem getFullARIATree_nodes_are_well_formed (walker : list Element) :
  totalAriaNodes (getFullARIATree walker)
  = List.length (ariaNodes (getFullARIATree walker)) /\
  (totalAriaNodes (getFullARIATree walker) <= List.length walker)%nat /\
  Forall fullAriaNodeOk (ariaNodes (getFullARIATree walker)).
Proof.
  destruct (ariaScan_invariant walker []) as [H1 H2].
  unfold getFullARIATree. cbn [totalAriaNodes ariaNodes].
  repeat split; assumption.
Qed.

(* ================================================================== *)
(** ** Switching the inspector on and off *)

Lemma fresh_is_not_registered (t : string) (st : Inspector) :
  listenersKnown st ->
  forall l, In l (listeners st) -> same_listener t (bound st) l = false.
Proof.
  intros Hk l Hin. unfold listenersKnown in Hk.
  rewrite Forall_forall in Hk. specialize (Hk l Hin).
  unfold same_listener. apply andb_false_iff. right.
  apply Nat.eqb_neq. lia.
Qed.

Lemma addBoundListener_appends (t : string) (st : Inspector) :
  listenersKnown st ->
  listeners (addBoundListener t st)
  = (listeners st ++ [mkListener t (bound st)])%list /\
  listenersKnown (addBoundListener t st) /\
  enabled (addBoundListener t st) = enabled st /\
  tooltip (addBoundListener t st) = tooltip st.
Proof.
  intros Hk. unfold addBoundListener. cbn [listeners enabled tooltip].
  replace (existsb (same_listener t (bound st)) (listeners st)) with false.
  - repeat split. unfold listenersKnown. cbn [listeners bound].
    apply Forall_app. split.
    + eapply Forall_impl; [| exact Hk]. intros l Hl. simpl in Hl. lia.
    + constructor; [simpl; lia | constructor].
  - symmetry. apply not_true_is_false. intros Hex.
    apply existsb_exists in Hex. destruct Hex as (l & Hin & Hl).
    rewrite (fresh_is_not_registered t st Hk l Hin) in Hl. discriminate Hl.
Qed.

Lemma removeBoundListener_removes_nothing (t : string) (st : Inspector) :
  listenersKnown st ->
  listeners (removeBoundListener t st) = listeners st /\
  listenersKnown (removeBoundListener t st) /\
  enabled (removeBoundListener t st) = enabled st /\
  tooltip (removeBoundListener t st) = tooltip st.
Proof.
  intros Hk. unfold removeBoundListener. cbn [listeners enabled tooltip].
  assert (Hf : filter (fun l => negb (same_listener t (bound st) l))
                      (listeners st) = listeners st).
  { apply forallb_filter_id. apply forallb_forall. intros l Hin.
    now rewrite (fresh_is_not_registered t st Hk l Hin). }
  rewrite Hf. repeat split.
  unfold listenersKnown. cbn [listeners bound].
  eapply Forall_impl; [| exact Hk]. intros l Hl. simpl in Hl. lia.
Qed.

Lemma activate_registers_four (st : Inspector) :
  listenersKnown st ->
  List.length (listeners (activate st)) = (List.length (listeners st) + 4)%nat /\
  listenersKnown (activate st) /\
  enabled (activate st) = enabled st /\ tooltip (activate st) = true.
Proof.
  intros Hk. unfold activate, eventTypes. cbn [fold_left].
  set (s0 := mkInspector (enabled st) true (panel st) (lastHighlighted st)
               (listeners st) (bound st)).
  assert (H0 : listenersKnown s0) by exact Hk.
  destruct (addBoundListener_appends "mouseover" s0 H0) as (L1 & K1 & E1 & T1).
  destruct (addBoundListener_appends "mouseout" _ K1) as (L2 & K2 & E2 & T2).
  destruct (addBoundListener_appends "keydown" _ K2) as (L3 & K3 & E3 & T3).
  destruct (addBoundListener_appends "click" _ K3) as (L4 & K4 & E4 & T4).
  split; [| split; [exact K4 | split]].
  - rewrite L4, L3, L2, L1. rewrite !length_app. simpl. lia.
  - rewrite E4, E3, E2, E1. reflexivity.
  - rewrite T4, T3, T2, T1. reflexivity.
Qed.

Lemma deactivate_removes_nothing (st : Inspector) :
  listenersKnown st ->
  listeners (deactivate st) = listeners st /\
  listenersKnown (deactivate st) /\
  enabled (deactivate st) = enabled st /\ tooltip (deactivate st) = false.
Proof.
  intros Hk. unfold deactivate, eventTypes. cbn [fold_left].
  set (s0 := mkInspector (enabled st) false (panel st) None
               (listeners st) (bound st)).
  assert (H0 : listenersKnown s0) by exact Hk.
  destruct (removeBoundListener_removes_nothing "mouseover" s0 H0)
    as (L1 & K1 & E1 & T1).
  destruct (removeBoundListener_removes_nothing "mouseout" _ K1)
    as (L2 & K2 & E2 & T2).
  destruct (removeBoundListener_removes_nothing "keydown" _ K2)
    as (L3 & K3 & E3 & T3).
  destruct (removeBoundListener_removes_nothing "click" _ K3)
    as (L4 & K4 & E4 & T4).
  cbn [listeners enabled tooltip].
  split; [| split; [| split]].
  - rewrite L4, L3, L2, L1. reflexivity.
  - exact K4.
  - rewrite E4, E3, E2, E1. reflexivity.
  - rewrite T4, T3, T2, T1. reflexivity.
Qed.

(** X23.  Switching the inspector off removes no listener: [activate]
    and [deactivate] each bind their handlers anew, so the functions
    handed to [removeEventListener] are never the registered ones.
    After switching on and off again the inspector is disabled and its
    tooltip is gone, but the document holds four more listeners than
    before. *)
Theorem switching_off_leaves_the_listeners (st : Inspector) :
  listenersKnown st -> enabled st = false ->
  let st' := toggle (toggle st) in
  enabled st' = false /\ tooltip st' = false /\
  List.length (listeners st') = (List.length (listeners st) + 4)%nat /\
  listenersKnown st' /\
  listeners (toggle st') <> listeners st'.
Proof.
  intros Hk He st'.
  set (s1 := mkInspector (negb (enabled st)) (tooltip st) (panel st)
               (lastHighlighted st) (listeners st) (bound st)).
  assert (K1 : listenersKnown s1) by exact Hk.
  assert (T1 : toggle st = activate s1).
  { unfold toggle. fold s1. unfold s1 at 1. cbn [enabled]. rewrite He.
    reflexivity. }
  destruct (activate_registers_four s1 K1) as (L2 & K2 & E2 & _).
  assert (E2' : enabled (toggle st) = true).
  { rewrite T1, E2. unfold s1. cbn [enabled]. now rewrite He. }
  set (s2 := mkInspector (negb (enabled (toggle st))) (tooltip (toggle st))
               (panel (toggle st)) (lastHighlighted (toggle st))
               (listeners (toggle st)) (bound (toggle st))).
  assert (K2' : listenersKnown s2) by (unfold s2; rewrite T1; exact K2).
  assert (T2 : st' = deactivate s2).
  { unfold st'. unfold toggle at 1. fold s2. unfold s2 at 1. cbn [enabled].
    rewrite E2'. reflexivity. }
  destruct (deactivate_removes_nothing s2 K2') as (L3 & K3 & E3 & T3).
  assert (Hen : enabled st' = false).
  { rewrite T2, E3. unfold s2. cbn [enabled]. now rewrite E2'. }
  assert (Hlen : List.length (listeners st')
                 = (List.length (listeners st) + 4)%nat).
  { rewrite T2, L3. unfold s2. cbn [listeners]. rewrite T1, L2.
    reflexivity. }
  assert (Hk' : listenersKnown st') by (rewrite T2; exact K3).
  split; [exact Hen |]. split; [rewrite T2; exact T3 |].
  split; [exact Hlen |]. split; [exact Hk' |].
  set (s3 := mkInspector (negb (enabled st')) (tooltip st') (panel st')
               (lastHighlighted st') (listeners st') (bound st')).
  assert (T4 : toggle st' = activate s3).
  { unfold toggle. fold s3. unfold s3 at 1. cbn [enabled]. rewrite Hen.
    reflexivity. }
  destruct (activate_registers_four s3 Hk') as (L4 & _).
  intros Heq. rewrite T4 in Heq. rewrite Heq in L4.
  unfold s3 in L4. cbn [listeners] in L4. lia.
Qed.

Lemma switching_witness :
  List.length (listeners (toggle (toggle newInspector))) = 4%nat.
Proof.
  apply (switching_off_leaves_the_listeners newInspector).
  - constructor.
  - reflexivity.
Defined.

(* ================================================================== *)
(** ** The further properties on sample pages *)

Lemma id_repeated_witness :
  value Cases.emailId = "#" ++ id Cases.emailInput.
Proof.
  eapply (id_candidate_is_repeated_as_css
            Cases.emailPage Cases.emailInput _ Cases.emailId).
  - vm_compute. reflexivity.
  - simpl. auto 20.
  - reflexivity.
Defined.

Lemma username_witness :
  getAccessibleName Cases.usernamePage Cases.usernameInput
  = Normal (Some "Username").
Proof.
  apply (input_placeholder_names_a_role_candidate
           Cases.usernamePage Cases.usernameInput "Username");
    try reflexivity; discriminate.
Defined.

Lemma heading_witness :
  getAccessibleName Cases.headingPage Cases.heading = Normal None.
Proof.
  eapply (other_tags_have_no_name_from_text
            Cases.headingPage Cases.heading _);
    try reflexivity; discriminate.
Defined.

Lemma best_locator_witness :
  exists info,
    buildLocatorInfo Samples.loginPage Samples.loginButton = Normal info /\
    (List.length (locators info) <= 13)%nat.
Proof.
  eexists. split.
  - vm_compute. reflexivity.
  - apply (best_locator_exists_and_is_maximal
             Samples.loginPage Samples.loginButton).
    vm_compute. reflexivity.
Defined.

Lemma more_matches_witness :
  exists s1 s2,
    calculateScore Samples.loginPage Cases.buttonCss Samples.loginButton
    = Normal s1 /\
    calculateScore Cases.twoButtonsPage Cases.buttonCss Samples.loginButton
    = Normal s2 /\
    (s2 <= s1)%Z.
Proof.
  destruct (more_matches_never_score_higher
              Samples.loginPage Cases.twoButtonsPage Cases.buttonCss
              Samples.loginButton)
    as (s1 & s2 & H1 & H2 & H3 & _).
  - vm_compute. split; repeat constructor.
  - exists s1, s2. repeat split; assumption.
Defined.

Lemma empty_span_witness :
  In (fullAriaNode Cases.emptySpan)
     (ariaNodes (getFullARIATree [Samples.loginButton; Cases.emptySpan])).
Proof.
  apply (tags_holding_an_A_are_always_listed
           Cases.emptySpan [Samples.loginButton] []).
  - simpl. intros [H | []]. discriminate H.
  - reflexivity.
  - reflexivity.
  - reflexivity.
Defined.
